(** * Connect 4 browser front end (web/src/main.ts): model and properties

    The front end keeps one mutable [state] object (board, history, level,
    busy), a module variable [winLine] and a status line.  Event listeners
    and the two async functions [handleMove] and [aiMove] mutate them.  The
    model below passes that state explicitly.  An async function is cut at
    its [await] points: every piece between two awaits runs to completion,
    as on the JavaScript event loop, and any other listener may run while a
    call is suspended.

    Not modelled: the canvas drawing ([draw] and its helpers), the
    [animations] array with its floating-point physics, and the DOM text of
    the info panel.  None of them is read back by the code that changes
    [state].  [waitForAnimations] is a suspension point that is resumed by
    a later event. *)

From Stdlib Require Import Ascii.
From stdpp Require Import base numbers list strings pretty.

#[local] Open Scope Z_scope.

(** ** Constants and data *)

Definition WIDTH : Z := 7.
Definition HEIGHT : Z := 6.

(** [type CellState = 0 | 1 | 2]: empty, human (blue), AI (red). *)
Inductive CellState := Empty | Human | AI.

#[global] Instance CellState_eq_dec : EqDecision CellState.
Proof. solve_decision. Defined.

(** [state.board]: an array of rows, row 0 being the bottom one; the rows
    are distinct arrays ([Array.from] calls its callback once per row), so
    there is no aliasing between rows. *)
Abbreviation Board := (list (list CellState)).

Record Cell := { col : Z; row : Z }.

Record WinningLine := { player : CellState; cells : list Cell }.

Record GameState := {
  board : Board;
  history : string;
  level : Z;
  busy : bool
}.

(** [state.board[r][c]]; [None] stands for JavaScript's [undefined], the
    result of reading a column index outside the row. *)
Definition cellAt (b : Board) (r c : Z) : option CellState :=
  if bool_decide (0 <= r ∧ 0 <= c)
  then b !! Z.to_nat r ≫= λ cs, cs !! Z.to_nat c
  else None.

(** [state.board[r][c] = p], used by the code on an existing cell only. *)
Definition setCell (b : Board) (r c : Z) (p : CellState) : Board :=
  alter (λ cs, <[Z.to_nat c := p]> cs) (Z.to_nat r) b.

Definition emptyBoard : Board :=
  replicate (Z.to_nat HEIGHT) (replicate (Z.to_nat WIDTH) Empty).

(** The shape every board of the program has: HEIGHT rows of WIDTH cells. *)
Definition wf_board (b : Board) : Prop :=
  length b = Z.to_nat HEIGHT ∧ Forall (λ cs, length cs = Z.to_nat WIDTH) b.

#[global] Instance wf_board_dec b : Decision (wf_board b).
Proof. unfold wf_board. apply _. Defined.

(** ** dropPiece *)

(** The [for] loop of [dropPiece]: [n] iterations remain, starting at [row]. *)
Fixpoint dropPiece_loop (n : nat) (b : Board) (player : CellState)
    (col row : Z) : Board * Z :=
  match n with
  | O => (b, -1)
  | S n' =>
      if decide (cellAt b row col = Some Empty)
      then (setCell b row col player, row)
      else dropPiece_loop n' b player col (row + 1)
  end.

(** [dropPiece(player, col)]: the board after the call and the returned row. *)
Definition dropPiece (b : Board) (player : CellState) (col : Z) : Board * Z :=
  dropPiece_loop (Z.to_nat HEIGHT) b player col 0.

(** ** collectLine and findWinningLine *)

Fixpoint collectLine_loop (n : nat) (b : Board) (player : CellState)
    (col row dc dr i : Z) (cells : list Cell) : option (list Cell) :=
  match n with
  | O => if decide (length cells = 4%nat) then Some cells else None
  | S n' =>
      let c := col + dc * i in
      let r := row + dr * i in
      if bool_decide (c < 0 ∨ c >= WIDTH ∨ r < 0 ∨ r >= HEIGHT) then None
      else if decide (cellAt b r c ≠ Some player) then None
      else collectLine_loop n' b player col row dc dr (i + 1)
             (cells ++ [{| col := c; row := r |}])
  end.

Definition collectLine (b : Board) (player : CellState)
    (col row dc dr : Z) : option (list Cell) :=
  collectLine_loop 4 b player col row dc dr 0 [].

(** A loop whose body returns from the function at the first hit. *)
Fixpoint firstSome {A B : Type} (f : A → option B) (l : list A) : option B :=
  match l with
  | [] => None
  | x :: l' => match f x with Some y => Some y | None => firstSome f l' end
  end.

Definition dirs : list (Z * Z) := [(1, 0); (0, 1); (1, 1); (1, -1)].

Definition findWinningLine (b : Board) (player : CellState)
    : option WinningLine :=
  firstSome (λ c,
    firstSome (λ r,
      firstSome (λ d : Z * Z,
        match collectLine b player c r d.1 d.2 with
        | Some cells => Some {| player := player; cells := cells |}
        | None => None
        end) dirs)
      (seqZ 0 HEIGHT))
    (seqZ 0 WIDTH).

(** ** The page: state, suspended calls, requests sent *)

(** Where a suspended [handleMove] call waits: at its first
    [waitForAnimations], inside [aiMove] at [fetch] (and the body read that
    follows, between which [aiMove] touches no state), or at its second
    [waitForAnimations].  Other listeners may run at each of them; when no
    animation is left the second wait ends at once, so the model allows
    more interleavings there than the page has, never fewer. *)
Inductive Stage := AwaitAnimations1 | AwaitFetch | AwaitAnimations2.

#[global] Instance Stage_eq_dec : EqDecision Stage.
Proof. solve_decision. Defined.

(** The two query parameters of a [/api/move] URL.  [encodeURIComponent]
    leaves letters and digits as they are, so [position] is the history. *)
Record Request := { position : string; levelParam : Z }.

Record World := {
  state : GameState;
  winLine : option WinningLine;
  status : string;
  suspended : list Stage;
  requests : list Request
}.

Definition withState (f : GameState → GameState) (w : World) : World :=
  {| state := f (state w); winLine := winLine w; status := status w;
     suspended := suspended w; requests := requests w |}.

Definition setBoard (b : Board) : World → World :=
  withState (λ s, {| board := b; history := history s; level := level s;
                     busy := busy s |}).

Definition setHistory (h : string) : World → World :=
  withState (λ s, {| board := board s; history := h; level := level s;
                     busy := busy s |}).

Definition setLevel (v : Z) : World → World :=
  withState (λ s, {| board := board s; history := history s; level := v;
                     busy := busy s |}).

Definition setBusy (v : bool) : World → World :=
  withState (λ s, {| board := board s; history := history s;
                     level := level s; busy := v |}).

Definition setWinLine (l : option WinningLine) (w : World) : World :=
  {| state := state w; winLine := l; status := status w;
     suspended := suspended w; requests := requests w |}.

Definition setStatus (t : string) (w : World) : World :=
  {| state := state w; winLine := winLine w; status := t;
     suspended := suspended w; requests := requests w |}.

Definition suspend (st : Stage) (w : World) : World :=
  {| state := state w; winLine := winLine w; status := status w;
     suspended := st :: suspended w; requests := requests w |}.

Definition send (rq : Request) (w : World) : World :=
  {| state := state w; winLine := winLine w; status := status w;
     suspended := suspended w; requests := requests w ++ [rq] |}.

(** Take one call suspended at [st] off the list, if there is one. *)
Fixpoint takeStage (st : Stage) (l : list Stage) : option (list Stage) :=
  match l with
  | [] => None
  | x :: l' => if decide (x = st) then Some l'
               else cons x <$> takeStage st l'
  end.

Definition resume (st : Stage) (w : World) : option World :=
  l ← takeStage st (suspended w);
  Some {| state := state w; winLine := winLine w; status := status w;
          suspended := l; requests := requests w |}.

Definition initialState : GameState :=
  {| board := emptyBoard; history := ""; level := 7; busy := false |}.

Definition initialWorld : World :=
  {| state := initialState; winLine := None;
     status := "You are Blue. Choose a column.";
     suspended := []; requests := [] |}.

(** ** The functions that change the state *)

(** [winLine = findWinningLine(1) ?? findWinningLine(2)]. *)
Definition updateInfo (w : World) : World :=
  setWinLine
    (match findWinningLine (board (state w)) Human with
     | Some l => Some l
     | None => findWinningLine (board (state w)) AI
     end) w.

Definition playerCode (p : CellState) : string :=
  if decide (p = Human) then "B" else "R".

(** [state.history += `${code}${col}`]: the column is written as it is. *)
Definition appendHistory (p : CellState) (col : Z) (w : World) : World :=
  updateInfo
    (setHistory (history (state w) +:+ (playerCode p +:+ pretty col)) w).

Definition resetGame (w : World) : World :=
  updateInfo
    (setStatus "You are Blue. Choose a column."
      (setWinLine None
        (setBusy false (setHistory "" (setBoard emptyBoard w))))).

(** [handleMove] up to its first [await]. *)
Definition handleMove (col : Z) (w : World) : World :=
  if busy (state w) then w
  else
    let w1 := setBusy true w in
    let '(b', row) := dropPiece (board (state w1)) Human col in
    let w2 := setBoard b' w1 in
    if decide (row = -1) then setBusy false w2
    else suspend AwaitAnimations1 (appendHistory Human col w2).

(** The canvas click listener, from the column it computed on. *)
Definition canvasClick (col : Z) (w : World) : World :=
  if bool_decide (col < 0 ∨ col >= WIDTH) then w else handleMove col w.

(** [handleMove] from its first [await] to the [fetch] inside [aiMove]. *)
Definition handleMove_thinking (w : World) : World :=
  let w1 := setStatus "AI (Red) thinking..." w in
  suspend AwaitFetch
    (send {| position := history (state w1);
             levelParam := level (state w1) |} w1).

(** What the awaited request gives back: a rejected promise (of [fetch] or
    of reading the body), a response that is not ok with its text, or a
    JSON body with its [column]. *)
Inductive FetchOutcome :=
  | Rejected (message : string)
  | NotOk (text : string)
  | Json (column : Z).

(** The [try] block of [aiMove] after the request: the world it leaves and
    the message of the error thrown, if one is. *)
Definition aiMove_try (r : FetchOutcome) (w : World) : World * option string :=
  match r with
  | Rejected message => (w, Some message)
  | NotOk text => (w, Some text)
  | Json column =>
      let '(b', row) := dropPiece (board (state w)) AI column in
      let w1 := setBoard b' w in
      if decide (row = -1) then (w1, Some "AI attempted an illegal column")
      else (appendHistory AI column w1, None)
  end.

(** [aiMove] from the settled request to its end: [try] and [catch]. *)
Definition aiMove_settle (r : FetchOutcome) (w : World) : World :=
  match aiMove_try r w with
  | (w', Some message) => setStatus ("API error: " +:+ message) w'
  | (w', None) => w'
  end.

(** [handleMove] after its second [await]. *)
Definition handleMove_finish (w : World) : World :=
  updateInfo (setStatus "AI done. Your turn." (setBusy false w)).

(** The level slider as the page declares it:
    [<input id="level" type="range" min="1" max="15" value="7" />]. *)
Definition LEVEL_MIN : Z := 1.
Definition LEVEL_MAX : Z := 15.

(** ** The event loop *)

(** What can happen next.  [LevelInput v] is the slider's input event with
    the value [v] the control holds, which a range control keeps between
    its [min] and [max]. *)
Inductive Event :=
  | CanvasClick (col : Z)
  | LevelInput (value : Z)
  | ResetClick
  | AnimationsSettled1
  | FetchSettled (r : FetchOutcome)
  | AnimationsSettled2.

(** One event, run to its next [await] or to its end; [None] when the
    event cannot happen in [w]. *)
Definition step (e : Event) (w : World) : option World :=
  match e with
  | CanvasClick col => Some (canvasClick col w)
  | LevelInput v =>
      if bool_decide (LEVEL_MIN <= v <= LEVEL_MAX) then Some (setLevel v w)
      else None
  | ResetClick => Some (resetGame w)
  | AnimationsSettled1 => handleMove_thinking <$> resume AwaitAnimations1 w
  | FetchSettled r =>
      (λ w', suspend AwaitAnimations2 (aiMove_settle r w'))
        <$> resume AwaitFetch w
  | AnimationsSettled2 => handleMove_finish <$> resume AwaitAnimations2 w
  end.

Fixpoint run (evs : list Event) (w : World) : option World :=
  match evs with
  | [] => Some w
  | e :: evs' => step e w ≫= run evs'
  end.

(** ** Vocabulary of the properties *)

(** Cell (c, r) lies on the board. *)
Definition inBounds (c r : Z) : Prop :=
  0 <= c < WIDTH ∧ 0 <= r < HEIGHT.

(** Four cells of [p] in a row: from (c, r), three more steps of (dc, dr),
    one of the four directions, all on the board. *)
Definition hasLine (b : Board) (p : CellState) : Prop :=
  ∃ c r d, d ∈ dirs ∧
    ∀ i, 0 <= i < 4 →
      inBounds (c + d.1 * i) (r + d.2 * i) ∧
      cellAt b (r + d.2 * i) (c + d.1 * i) = Some p.

(** The four cells from (c, r) along (dc, dr), in the order of the walk. *)
Definition lineCells (c r dc dr : Z) : list Cell :=
  (λ i, {| col := c + dc * i; row := r + dr * i |}) <$> [0; 1; 2; 3].

(** A cell that holds a piece. *)
Definition occupied (b : Board) (r c : Z) : Prop :=
  ∃ p, cellAt b r c = Some p ∧ p ≠ Empty.

#[global] Instance occupied_dec b r c : Decision (occupied b r c).
Proof.
  unfold occupied. destruct (cellAt b r c) as [p|].
  - destruct (decide (p = Empty)) as [->|Hp].
    + right. intros (q & Hq & Hne). congruence.
    + left. eauto.
  - right. intros (q & Hq & _). discriminate.
Defined.

(** No row of column [c] reads as empty. *)
Definition columnFull (b : Board) (c : Z) : Prop :=
  ∀ r, 0 <= r < HEIGHT → cellAt b r c ≠ Some Empty.

(** Number of occupied cells of column [c]. *)
Definition columnFill (b : Board) (c : Z) : nat :=
  length (filter (λ r, occupied b r c) (seqZ 0 HEIGHT)).

(** The history format: a token is one marker character followed by the
    decimal digits of a column, as in [B3R3B2R4]. *)
Record Token := { marker : Ascii.ascii; digits : string }.

Definition isDigit (a : Ascii.ascii) : bool :=
  (48 <=? Ascii.nat_of_ascii a)%nat && (Ascii.nat_of_ascii a <=? 57)%nat.

(** The digits a string starts with, and the tokens that follow them. *)
Fixpoint scan (s : string) : string * list Token :=
  match s with
  | EmptyString => (EmptyString, [])
  | String a s' =>
      let '(ds, ts) := scan s' in
      if isDigit a then (String a ds, ts)
      else (EmptyString, {| marker := a; digits := ds |} :: ts)
  end.

Definition tokens (s : string) : list Token := (scan s).2.

(** The marker a history has at token index [i]: B first, then in turn. *)
Definition markerAt (i : nat) : Ascii.ascii :=
  if Nat.even i then "B"%char else "R"%char.

Definition alternates (ts : list Token) : Prop :=
  ∀ i t, ts !! i = Some t → marker t = markerAt i.

(** Number of tokens of [h] written for a move on column [c], a column
    being written by [appendHistory] as its decimal numeral. *)
Definition historyCount (h : string) (c : Z) : nat :=
  length (filter (λ t, digits t = pretty c) (tokens h)).

(** An event of a run in which every AI request brings back a column that
    admits a drop, and Reset is pressed only while no call is suspended. *)
Definition nominal (e : Event) (w : World) : bool :=
  match e with
  | FetchSettled (Json column) =>
      bool_decide ((dropPiece (board (state w)) AI column).2 ≠ -1)
  | FetchSettled _ => false
  | ResetClick => bool_decide (suspended w = [])
  | _ => true
  end.

Fixpoint runNominal (evs : list Event) (w : World) : option World :=
  match evs with
  | [] => Some w
  | e :: evs' =>
      if nominal e w then step e w ≫= runNominal evs' else None
  end.

(** The invariant of nominal runs: at most one call is suspended, [busy]
    says whether one is, and the history alternates, its parity telling
    who moved last. *)
Definition turnInv (w : World) : Prop :=
  alternates (tokens (history (state w))) ∧
  match suspended w with
  | [] =>
      busy (state w) = false ∧
      Nat.even (length (tokens (history (state w)))) = true
  | [AwaitAnimations2] =>
      busy (state w) = true ∧
      Nat.even (length (tokens (history (state w)))) = true
  | [_] =>
      busy (state w) = true ∧
      Nat.even (length (tokens (history (state w)))) = false
  | _ => False
  end.

(** The board and the history tell the same per-column counts. *)
Definition countsAgree (w : World) : Prop :=
  wf_board (board (state w)) ∧
  ∀ c, 0 <= c < WIDTH →
    columnFill (board (state w)) c = historyCount (history (state w)) c.

(** Two statements about the page that it does not meet, in the words they
    are made in. *)


(** Every history the page reaches alternates from B. *)
Definition historyAlwaysAlternates : Prop :=
  ∀ evs w,
    run evs initialWorld = Some w →
    alternates (tokens (history (state w))).

(** The level held and the levels sent so far are within the slider's range. *)
Definition levelInv (w : World) : Prop :=
  LEVEL_MIN <= level (state w) <= LEVEL_MAX ∧
  ∀ rq, rq ∈ requests w → LEVEL_MIN <= levelParam rq <= LEVEL_MAX.

(** ** Sample runs *)

(** One full move: the click, the end of the drop animation, the answer of
    the server with column [k], the end of the second animation. *)
Definition playRound (c k : Z) : list Event :=
  [CanvasClick c; AnimationsSettled1; FetchSettled (Json k);
   AnimationsSettled2].

Definition worldAfter (evs : list Event) : World :=
  default initialWorld (run evs initialWorld).

Definition afterTwoRounds : World :=
  Eval vm_compute in worldAfter (playRound 3 3 ++ playRound 2 4).

Definition afterLevel15 : World :=
  Eval vm_compute in worldAfter (LevelInput 15 :: playRound 3 3).

Definition afterClick0 : World :=
  Eval vm_compute in worldAfter [CanvasClick 0; AnimationsSettled1].

(** A click, a request that fails, and a second click. *)
Definition failedRequestRun : list Event :=
  [CanvasClick 0; AnimationsSettled1; FetchSettled (Rejected "Failed to fetch");
   AnimationsSettled2; CanvasClick 0].

Definition afterFailedRequest : World :=
  Eval vm_compute in worldAfter failedRequestRun.

(** Reset pressed between a click and the answer to its request. *)
Definition resetInFlightRun : list Event :=
  [CanvasClick 0; ResetClick; AnimationsSettled1; FetchSettled (Json 3)].

Definition afterResetInFlight : World :=
  Eval vm_compute in worldAfter resetInFlightRun.

(** Blue stacks four pieces on column 0 while red plays column 1; the
    request after the fourth blue piece is refused. *)
Definition blueWinsRun : list Event :=
  playRound 0 1 ++ playRound 0 1 ++ playRound 0 1 ++
  [CanvasClick 0; AnimationsSettled1; FetchSettled (NotOk "game is over");
   AnimationsSettled2].

Definition afterBlueWins : World :=
  Eval vm_compute in worldAfter blueWinsRun.

(** Blue holds the four bottom cells of column 0. *)
Definition blueColumnBoard : Board :=
  [[Human; AI; Empty; Empty; Empty; Empty; Empty];
   [Human; AI; Empty; Empty; Empty; Empty; Empty];
   [Human; AI; Empty; Empty; Empty; Empty; Empty];
   [Human; Empty; Empty; Empty; Empty; Empty; Empty];
   [Empty; Empty; Empty; Empty; Empty; Empty; Empty];
   [Empty; Empty; Empty; Empty; Empty; Empty; Empty]].

(** * More of the page *)

(** ** Outcome text, gravity, recorded moves *)

(** [describeOutcome()], which reads [state.board] and [state.busy]. *)
Definition describeOutcome (s : GameState) : string :=
  let humanWin := bool_decide (findWinningLine (board s) Human ≠ None) in
  let aiWin := bool_decide (findWinningLine (board s) AI ≠ None) in
  if humanWin && aiWin then "Conflict state"
  else if humanWin then "You win!"
  else if aiWin then "AI wins!"
  else if busy s then "AI thinking..."
  else "AI done. Your turn.".

(** No piece hangs in the air: below an occupied cell every cell of the
    column is occupied. *)
Definition settled (b : Board) : Prop :=
  ∀ r c, occupied b r c → ∀ r', 0 <= r' < r → occupied b r' c.

(** The shape and the gravity of the board together. *)
Definition boardInv (w : World) : Prop :=
  wf_board (board (state w)) ∧ settled (board (state w)).

(** A list of moves as [appendHistory] writes them one after the other,
    and as [dropPiece] plays them one after the other from the empty
    board; [None] when one of the drops returns -1. *)
Definition encodeMoves (ms : list (CellState * Z)) : string :=
  foldl (λ h m, h +:+ (playerCode m.1 +:+ pretty m.2)) EmptyString ms.

Definition replayMoves (ms : list (CellState * Z)) : option Board :=
  foldl (λ ob m,
      b ← ob;
      if decide ((dropPiece b m.1 m.2).2 = -1) then None
      else Some (dropPiece b m.1 m.2).1)
    (Some emptyBoard) ms.

Definition legalMove (m : CellState * Z) : Prop :=
  (m.1 = Human ∨ m.1 = AI) ∧ 0 <= m.2 < WIDTH.

(** The token [appendHistory] writes for a move. *)
Definition moveToken (m : CellState * Z) : Token :=
  {| marker := if decide (m.1 = Human) then "B"%char else "R"%char;
     digits := pretty m.2 |}.

(** The state is the record of some list of moves. *)
Definition recorded (w : World) : Prop :=
  ∃ ms, Forall legalMove ms ∧
    history (state w) = encodeMoves ms ∧
    tokens (history (state w)) = moveToken <$> ms ∧
    replayMoves ms = Some (board (state w)).

(** [winLine] is what [updateInfo] would store. *)
Definition winLineFresh (w : World) : Prop :=
  winLine (updateInfo w) = winLine w.

(** [busy] is set only while a call is suspended. *)
Definition busyInv (w : World) : Prop :=
  busy (state w) = true → suspended w ≠ [].

(** The events that bring one suspended call to its end, the request
    being rejected; and those for a list of suspended calls, the first
    call first. *)
Definition settleCall (st : Stage) : list Event :=
  match st with
  | AwaitAnimations1 =>
      [AnimationsSettled1; FetchSettled (Rejected EmptyString);
       AnimationsSettled2]
  | AwaitFetch => [FetchSettled (Rejected EmptyString); AnimationsSettled2]
  | AwaitAnimations2 => [AnimationsSettled2]
  end.

Definition settleAll (l : list Stage) : list Event :=
  concat (settleCall <$> l).

(** The requests of a nominal run ask for a red move: their history
    alternates and ends on a blue token. *)
Definition asksForRed (rq : Request) : Prop :=
  alternates (tokens (position rq)) ∧
  Nat.even (length (tokens (position rq))) = false.

(** Two worlds that differ at most in the level and the requests sent. *)
Definition samePage (w1 w2 : World) : Prop :=
  board (state w1) = board (state w2) ∧
  history (state w1) = history (state w2) ∧
  busy (state w1) = busy (state w2) ∧
  winLine w1 = winLine w2 ∧
  status w1 = status w2 ∧
  suspended w1 = suspended w2.

(** ** Layout *)

Definition CELL : Z := 96.
Definition PADDING : Z := 24.
Definition BUTTON_HEIGHT : Z := 50.

(** [canvas.width] and [canvas.height]. *)
Definition canvasWidth : Z := WIDTH * CELL + PADDING * 2.
Definition canvasHeight : Z :=
  BUTTON_HEIGHT + PADDING + HEIGHT * CELL + PADDING * 2.

(** The fields of an [Animation] are numbers; [spawnAnimation] fills them
    with integers ([CELL / 2] is 48), which is all that is modelled of
    them.  The field names carry a prefix, [col] and [row] being taken. *)
Record Animation := {
  anim_col : Z;
  anim_row : Z;
  anim_x : Z;
  anim_y : Z;
  anim_targetY : Z;
  anim_vy : Z;
  anim_color : string
}.

(** [spawnAnimation(col, row, color)]: the record it pushes. *)
Definition spawnAnimation (col row : Z) (color : string) : Animation :=
  let x := PADDING + col * CELL + CELL / 2 in
  let boardTop := BUTTON_HEIGHT + PADDING in
  let targetY := boardTop + PADDING + (HEIGHT - 1 - row) * CELL + CELL / 2 in
  {| anim_col := col; anim_row := row; anim_x := x; anim_y := boardTop - CELL;
     anim_targetY := targetY; anim_vy := 0; anim_color := color |}.

(** The point [drawDisc(col, row, ...)] hands to [drawDiscAt]. *)
Definition drawDisc_center (col row : Z) : Z * Z :=
  let boardTop := BUTTON_HEIGHT + PADDING in
  let x := PADDING + col * CELL + CELL / 2 in
  let y := boardTop + PADDING + (HEIGHT - 1 - row) * CELL + CELL / 2 in
  (x, y).

(** The centre of the hole [drawBoard] draws for (col, row). *)
Definition drawBoard_hole (col row : Z) : Z * Z :=
  let boardTop := BUTTON_HEIGHT + PADDING in
  let x := PADDING + col * CELL + CELL / 2 in
  let y := boardTop + PADDING + (HEIGHT - 1 - row) * CELL + CELL / 2 in
  (x, y).

(** The rectangle of [drawBoard]: x, y, width, height. *)
Definition drawBoard_rect : Z * Z * Z * Z :=
  let boardTop := BUTTON_HEIGHT + PADDING in
  let boardX := PADDING / 2 in
  let boardY := boardTop + PADDING / 2 in
  let boardW := WIDTH * CELL + PADDING in
  let boardH := HEIGHT * CELL + PADDING in
  (boardX, boardY, boardW, boardH).

(** The rectangle [drawButtons] draws for column [col], and the point of
    its label. *)
Definition drawButtons_rect (col : Z) : Z * Z * Z * Z :=
  let x := PADDING + col * CELL in
  let y := PADDING / 2 in
  let w := CELL - 12 in
  let h := BUTTON_HEIGHT - 10 in
  (x + 6, y, w, h).

Definition drawButtons_label (col : Z) : Z * Z :=
  let x := PADDING + col * CELL in
  let y := PADDING / 2 in
  let h := BUTTON_HEIGHT - 10 in
  (x + CELL / 2, y + h / 2).

(** ** shade and clamp *)

(** [Math.min(Math.max(value, min), max)] on integers. *)
Definition clamp (value min max : Z) : Z :=
  Z.min (Z.max value min) max.

(** A JavaScript number as [parseInt] gives it: NaN, an infinity, or an
    integer. *)
Inductive JsNumber := NaN | Infinite (negative : bool) | Finite (z : Z).

(** [color.replace("#", "")]: the first [#] is taken out. *)
Fixpoint removeFirstHash (s : string) : string :=
  match s with
  | EmptyString => EmptyString
  | String a s' =>
      if decide (a = "#"%char) then s' else String a (removeFirstHash s')
  end.

(** White space that [parseInt] skips, among the characters below 256. *)
Definition isWhiteSpace (a : ascii) : bool :=
  bool_decide (nat_of_ascii a ∈ [9; 10; 11; 12; 13; 32; 160]%nat).

Fixpoint trimStart (s : string) : string :=
  match s with
  | EmptyString => EmptyString
  | String a s' => if isWhiteSpace a then trimStart s' else s
  end.

Definition hexValue (a : ascii) : option Z :=
  let n := Z.of_nat (nat_of_ascii a) in
  if bool_decide (48 <= n <= 57) then Some (n - 48)
  else if bool_decide (65 <= n <= 70) then Some (n - 55)
  else if bool_decide (97 <= n <= 102) then Some (n - 87)
  else None.

(** The value of the hexadecimal digits a string starts with, after
    [acc]; [seen] says whether a digit was read. *)
Fixpoint hexPrefix (s : string) (acc : Z) (seen : bool) : option Z :=
  match s with
  | EmptyString => if seen then Some acc else None
  | String a s' =>
      match hexValue a with
      | Some d => hexPrefix s' (16 * acc + d) true
      | None => if seen then Some acc else None
      end
  end.

(** The double nearest to a natural number [n], ties to even; infinite
    from 2^1024 on. *)
Definition roundToDouble (n : Z) : JsNumber :=
  let k := Z.log2 n + 1 - 53 in
  if bool_decide (k <= 0) then Finite n
  else
    let q := Z.shiftr n k in
    let r := Z.land n (Z.ones k) in
    let half := Z.shiftl 1 (k - 1) in
    let q' := if bool_decide (half < r ∨ (r = half ∧ Z.odd q = true))
              then q + 1 else q in
    let v := Z.shiftl q' k in
    if bool_decide (2 ^ 1024 <= v) then Infinite false else Finite v.

Definition negate (x : JsNumber) : JsNumber :=
  match x with
  | NaN => NaN
  | Infinite s => Infinite (negb s)
  | Finite z => Finite (- z)
  end.

(** [parseInt(s, 16)]: white space, a sign, [0x] or [0X], then digits. *)
Definition parseInt16 (s : string) : JsNumber :=
  let s1 := trimStart s in
  let '(neg, s2) :=
    match s1 with
    | String "-" t => (true, t)
    | String "+" t => (false, t)
    | _ => (false, s1)
    end in
  let s3 :=
    match s2 with
    | String "0" (String "x" t) => t
    | String "0" (String "X" t) => t
    | _ => s2
    end in
  match hexPrefix s3 0 false with
  | None => NaN
  | Some n => if neg then negate (roundToDouble n) else roundToDouble n
  end.

(** The 32-bit integer the bit operators read their operand as. *)
Definition toInt32 (x : JsNumber) : Z :=
  match x with
  | Finite z => ((z + 2 ^ 31) `mod` (2 ^ 32)) - 2 ^ 31
  | _ => 0
  end.

(** The three channels [shade] computes. *)
Definition shade_channels (color : string) (amount : Z) : Z * Z * Z :=
  let num := parseInt16 (removeFirstHash color) in
  let r := clamp (Z.land (Z.shiftr (toInt32 num) 16) 255 + amount) 0 255 in
  let g := clamp (Z.land (Z.shiftr (toInt32 num) 8) 255 + amount) 0 255 in
  let b := clamp (Z.land (toInt32 num) 255 + amount) 0 255 in
  (r, g, b).

Definition shade (color : string) (amount : Z) : string :=
  let '(r, g, b) := shade_channels color amount in
  "rgb(" +:+ pretty r +:+ ", " +:+ pretty g +:+ ", " +:+ pretty b +:+ ")".

(** A colour written [#] and six hexadecimal digits, of value [n]. *)
Definition hexColor (color : string) (n : Z) : Prop :=
  ∃ ds, color = String "#" ds ∧ String.length ds = 6%nat ∧
    hexPrefix ds 0 false = Some n ∧
    ∀ i a, String.get i ds = Some a → is_Some (hexValue a).

Definition HUMAN_COLOR : string := "#38bdf8".
Definition AI_COLOR : string := "#e11d48".

(** ** drawPieces *)

(** One call of [drawDisc(col, row, color, pulse)]. *)
Record DiscCall := {
  disc_col : Z;
  disc_row : Z;
  disc_color : string;
  disc_pulse : bool
}.

(** The colour [drawPieces] picks for what it read in a cell. *)
Definition pieceColor (cell : option CellState) : string :=
  if decide (cell = Some Human) then HUMAN_COLOR else AI_COLOR.

(** [winLine?.cells.some(...) ?? false]. *)
Definition isWinner (wl : option WinningLine) (c r : Z) : bool :=
  match wl with
  | Some l => bool_decide (Exists (λ x, col x = c ∧ row x = r) (cells l))
  | None => false
  end.

(** [drawPieces()]: the calls of [drawDisc] it makes, in order, for the
    board, the animations in flight and [winLine].  Of an animation it
    reads the column and the row only. *)
Definition drawPieces (b : Board) (animations : list Animation)
    (wl : option WinningLine) : list DiscCall :=
  c ← seqZ 0 WIDTH;
  r ← seqZ 0 HEIGHT;
  if decide (cellAt b r c = Some Empty) then []
  else if bool_decide
            (Exists (λ a, anim_col a = c ∧ anim_row a = r) animations)
  then []
  else [{| disc_col := c; disc_row := r;
           disc_color := pieceColor (cellAt b r c);
           disc_pulse := isWinner wl c r |}].

(** * Properties *)

(** Closes a decidable closed goal by evaluation. *)
Ltac by_eval := apply (bool_decide_unpack _); vm_compute; exact I.

(** ** Reading and writing cells *)

Lemma cellAt_Some_nonneg (b : Board) (r c : Z) (x : CellState) :
  cellAt b r c = Some x → 0 <= r ∧ 0 <= c.
Proof.
  unfold cellAt. case_bool_decide; [done | discriminate].
Qed.

Lemma cellAt_setCell (b : Board) (r c : Z) (x p : CellState) (r' c' : Z) :
  cellAt b r c = Some x →
  cellAt (setCell b r c p) r' c' =
    if decide (r' = r ∧ c' = c) then Some p else cellAt b r' c'.
Proof.
  intros Hx. pose proof (cellAt_Some_nonneg _ _ _ _ Hx) as [Hr Hc].
  unfold cellAt, setCell in *.
  rewrite bool_decide_eq_true_2 in Hx by done.
  case_bool_decide as Hnn; [| case_decide; [lia | done]].
  destruct Hnn as [Hr' Hc'].
  destruct (decide (Z.to_nat r = Z.to_nat r')) as [Er | Er].
  - assert (r' = r) as -> by lia.
    rewrite list_lookup_alter_eq.
    destruct (b !! Z.to_nat r) as [cs |] eqn:Hrow; [| done]. simpl in *.
    destruct (decide (Z.to_nat c = Z.to_nat c')) as [Ec | Ec].
    + assert (c' = c) as -> by lia.
      rewrite decide_True by done.
      apply list_lookup_insert_eq. by eapply lookup_lt_Some.
    + rewrite decide_False by lia. by apply list_lookup_insert_ne.
  - rewrite list_lookup_alter_ne by done.
    rewrite decide_False by lia. done.
Qed.

Lemma setCell_wf (b : Board) (r c : Z) (p : CellState) :
  wf_board b → wf_board (setCell b r c p).
Proof.
  intros [Hlen Hrows]. unfold wf_board, setCell. split.
  - by rewrite length_alter.
  - apply Forall_alter; [done |]. intros cs _ Hcs. by rewrite length_insert.
Qed.

Lemma wf_cellAt (b : Board) (r c : Z) :
  wf_board b → inBounds c r → is_Some (cellAt b r c).
Proof.
  intros [Hlen Hrows] [Hc Hr]. unfold cellAt, WIDTH, HEIGHT in *.
  rewrite bool_decide_eq_true_2 by lia.
  destruct (lookup_lt_is_Some_2 b (Z.to_nat r)) as [cs Hcs]; [lia |].
  rewrite Hcs. simpl. apply lookup_lt_is_Some_2.
  rewrite Forall_forall in Hrows.
  rewrite (Hrows cs) by (eapply list_elem_of_lookup_2; done).
  lia.
Qed.

Lemma wf_occupied (b : Board) (r c : Z) :
  wf_board b → inBounds c r →
  occupied b r c ↔ cellAt b r c ≠ Some Empty.
Proof.
  intros Hwf Hin. destruct (wf_cellAt b r c Hwf Hin) as [x Hx].
  unfold occupied. rewrite Hx. split.
  - intros (p & Hp & Hne). congruence.
  - intros Hne. exists x. split; [done | congruence].
Qed.

Lemma emptyBoard_wf : wf_board emptyBoard.
Proof. by_eval. Qed.

(** ** dropPiece *)

Lemma dropPiece_loop_spec (n : nat) (b : Board) (p : CellState) (c r0 : Z) :
  (dropPiece_loop n b p c r0 = (b, -1) ∧
   ∀ r, r0 <= r < r0 + Z.of_nat n → cellAt b r c ≠ Some Empty) ∨
  (∃ r, r0 <= r < r0 + Z.of_nat n ∧ cellAt b r c = Some Empty ∧
        (∀ r', r0 <= r' < r → cellAt b r' c ≠ Some Empty) ∧
        dropPiece_loop n b p c r0 = (setCell b r c p, r)).
Proof.
  revert r0. induction n as [| n IH]; intros r0.
  - left. split; [done | intros r Hr; lia].
  - simpl dropPiece_loop. case_decide as Hcell.
    + right. exists r0. split; [lia |]. split; [done |].
      split; [intros r' Hr'; lia | done].
    + destruct (IH (r0 + 1)) as [[Heq Hall] | (r & Hr & He & Hlow & Heq)].
      * left. split; [done |]. intros r Hr.
        destruct (decide (r = r0)) as [-> | Hne]; [done |].
        apply Hall. lia.
      * right. exists r. split; [lia |]. split; [done |]. split; [| done].
        intros r' Hr'. destruct (decide (r' = r0)) as [-> | Hne]; [done |].
        apply Hlow. lia.
Qed.

Lemma dropPiece_spec (b : Board) (p : CellState) (c : Z) :
  (dropPiece b p c = (b, -1) ∧ columnFull b c) ∨
  (∃ r, 0 <= r < HEIGHT ∧ cellAt b r c = Some Empty ∧
        (∀ r', 0 <= r' < r → cellAt b r' c ≠ Some Empty) ∧
        dropPiece b p c = (setCell b r c p, r)).
Proof.
  unfold dropPiece, columnFull.
  destruct (dropPiece_loop_spec (Z.to_nat HEIGHT) b p c 0)
    as [[Heq Hall] | (r & Hr & He & Hlow & Heq)].
  - left. split; [done |]. intros r Hr. apply Hall. unfold HEIGHT in *. lia.
  - right. exists r. unfold HEIGHT in *. split; [lia | done].
Qed.

Lemma dropPiece_wf (b : Board) (p : CellState) (c : Z) :
  wf_board b → wf_board (dropPiece b p c).1.
Proof.
  intros Hwf.
  destruct (dropPiece_spec b p c) as [[-> _] | (r & _ & _ & _ & ->)];
    [done | by apply setCell_wf].
Qed.

(** C5: on a 7x6 board and for a column c in [0,6], dropPiece(p, c) writes p
    into the lowest row of column c that is empty and returns that row; when
    all six rows of the column are occupied it returns -1 and leaves the
    board as it was. *)
Theorem dropPiece_lowest_empty_or_full (b : Board) (p : CellState) (c : Z) :
  wf_board b → 0 <= c < WIDTH →
  ((∀ r, 0 <= r < HEIGHT → occupied b r c) → dropPiece b p c = (b, -1)) ∧
  (¬ (∀ r, 0 <= r < HEIGHT → occupied b r c) →
   ∃ r, 0 <= r < HEIGHT ∧
        cellAt b r c = Some Empty ∧
        (∀ r', 0 <= r' < r → occupied b r' c) ∧
        dropPiece b p c = (setCell b r c p, r) ∧
        cellAt (setCell b r c p) r c = Some p).
Proof.
  intros Hwf Hc.
  destruct (dropPiece_spec b p c) as [[Heq Hfull] | (r & Hr & He & Hlow & Heq)].
  - split; [done |]. intros Hnot. destruct Hnot. intros r Hr.
    apply wf_occupied; [done | done |]. by apply Hfull.
  - split.
    + intros Hocc. destruct (Hocc r Hr) as (q & Hq & Hne). congruence.
    + intros _. exists r. split; [done |]. split; [done |]. split.
      * intros r' Hr'. apply wf_occupied; [done | unfold inBounds; lia |].
        by apply Hlow.
      * split; [done |]. rewrite (cellAt_setCell _ _ _ Empty) by done.
        by rewrite decide_True.
Qed.

(** [dropPiece_lowest_empty_or_full] on the empty board, column 3. *)
Lemma dropPiece_lowest_empty_or_full_witness :
  wf_board emptyBoard ∧ 0 <= 3 < WIDTH ∧
  dropPiece emptyBoard Human 3 = (setCell emptyBoard 0 3 Human, 0).
Proof.
  split; [by_eval |]. split; [by_eval |].
  destruct (dropPiece_lowest_empty_or_full emptyBoard Human 3) as [_ H].
  - by_eval.
  - by_eval.
  - reflexivity.
Defined.

(** C10: a dropPiece(p, c) that returns a row r >= 0 found board[r][c] empty
    and leaves p there; every other cell reads as before; and no call of
    dropPiece, successful or not, changes a cell that holds a piece. *)
Theorem dropPiece_changes_one_empty_cell (b : Board) (p : CellState) (c : Z) :
  (0 <= (dropPiece b p c).2 →
   cellAt b (dropPiece b p c).2 c = Some Empty ∧
   cellAt (dropPiece b p c).1 (dropPiece b p c).2 c = Some p ∧
   ∀ r' c', ¬ (r' = (dropPiece b p c).2 ∧ c' = c) →
     cellAt (dropPiece b p c).1 r' c' = cellAt b r' c') ∧
  (∀ r' c', occupied b r' c' →
     cellAt (dropPiece b p c).1 r' c' = cellAt b r' c').
Proof.
  destruct (dropPiece_spec b p c) as [[Heq Hfull] | (r & Hr & He & Hlow & Heq)];
    rewrite Heq; simpl.
  - split; [lia | done].
  - split.
    + intros _. split; [done |]. split.
      * rewrite (cellAt_setCell _ _ _ Empty) by done. by rewrite decide_True.
      * intros r' c' Hne. rewrite (cellAt_setCell _ _ _ Empty) by done.
        by rewrite decide_False.
    + intros r' c' (q & Hq & Hne).
      rewrite (cellAt_setCell _ _ _ Empty) by done.
      case_decide as Hsame; [| done]. destruct Hsame as [-> ->]. congruence.
Qed.

(** [dropPiece_changes_one_empty_cell] on the empty board: the piece of a
    drop into column 2 lands on the bottom row. *)
Lemma dropPiece_changes_one_empty_cell_witness :
  0 <= (dropPiece emptyBoard AI 2).2 ∧
  cellAt (dropPiece emptyBoard AI 2).1 (dropPiece emptyBoard AI 2).2 2 = Some AI.
Proof.
  split; [by_eval |].
  destruct (dropPiece_changes_one_empty_cell emptyBoard AI 2) as [H _].
  destruct H as (_ & H & _); [by_eval | exact H].
Defined.

(** ** findWinningLine *)

Lemma firstSome_Some {A B : Type} (f : A → option B) (l : list A) (y : B) :
  firstSome f l = Some y → ∃ x, x ∈ l ∧ f x = Some y.
Proof.
  induction l as [| x l IH]; simpl; [discriminate |].
  destruct (f x) as [y' |] eqn:Hfx.
  - intros [= <-]. exists x. split; [left | done].
  - intros Hl. destruct (IH Hl) as (x' & Hin & Hx').
    exists x'. split; [by right | done].
Qed.

Lemma firstSome_hit {A B : Type} (f : A → option B) (l : list A) (x : A) :
  x ∈ l → is_Some (f x) → is_Some (firstSome f l).
Proof.
  intros Hin Hx. induction Hin as [x l | x x' l Hin IH]; simpl.
  - destruct Hx as [y ->]. by eexists.
  - destruct (f x'); [by eexists | by apply IH].
Qed.

Lemma collectLine_sound (b : Board) (p : CellState) (c r dc dr : Z)
    (line : list Cell) :
  collectLine b p c r dc dr = Some line →
  line = lineCells c r dc dr ∧
  ∀ i, 0 <= i < 4 →
    inBounds (c + dc * i) (r + dr * i) ∧
    cellAt b (r + dr * i) (c + dc * i) = Some p.
Proof.
  unfold collectLine. cbn [collectLine_loop].
  repeat (case_bool_decide; [discriminate |];
          case_decide; [discriminate |]).
  simpl. intros [= <-]. split; [done |].
  intros i Hi. unfold inBounds.
  assert (i = 0 ∨ i = 0 + 1 ∨ i = 0 + 1 + 1 ∨ i = 0 + 1 + 1 + 1)
    as [-> | [-> | [-> | ->]]] by lia.
  - split; [lia | done].
  - split; [lia | done].
  - split; [lia | done].
  - split; [lia | done].
Qed.

Lemma collectLine_complete (b : Board) (p : CellState) (c r dc dr : Z) :
  (∀ i, 0 <= i < 4 →
     inBounds (c + dc * i) (r + dr * i) ∧
     cellAt b (r + dr * i) (c + dc * i) = Some p) →
  collectLine b p c r dc dr = Some (lineCells c r dc dr).
Proof.
  intros Hall. unfold collectLine. cbn [collectLine_loop].
  repeat (
    match goal with
    | |- context [bool_decide (c + dc * ?i < 0 ∨ _)] =>
        destruct (Hall i ltac:(lia)) as [[? ?] ?];
        rewrite (bool_decide_eq_false_2 (c + dc * i < 0 ∨ _)) by lia;
        rewrite (decide_False (P := cellAt b (r + dr * i) (c + dc * i) ≠ Some p))
          by (intros Hne; by apply Hne)
    end).
  done.
Qed.

(** C4: on a 7x6 board, findWinningLine(p) returns a line exactly when p
    holds four cells in a row along (1,0), (0,1), (1,1) or (1,-1), all on the
    board; the line it returns is for p and lists four cells, each one step
    of one of these directions after the one before, each on the board and
    holding p. *)
Theorem findWinningLine_iff_four_connected (b : Board) (p : CellState) :
  wf_board b →
  (findWinningLine b p ≠ None ↔ hasLine b p) ∧
  (∀ line, findWinningLine b p = Some line →
     player line = p ∧
     length (cells line) = 4%nat ∧
     (∃ c r d, d ∈ dirs ∧ cells line = lineCells c r d.1 d.2) ∧
     (∀ x, x ∈ cells line →
        inBounds (col x) (row x) ∧ cellAt b (row x) (col x) = Some p)).
Proof.
  intros _.
  assert (Hsound : ∀ line, findWinningLine b p = Some line →
            ∃ c r d, d ∈ dirs ∧ player line = p ∧
              cells line = lineCells c r d.1 d.2 ∧
              ∀ i, 0 <= i < 4 →
                inBounds (c + d.1 * i) (r + d.2 * i) ∧
                cellAt b (r + d.2 * i) (c + d.1 * i) = Some p).
  { intros line Hfind. unfold findWinningLine in Hfind.
    apply firstSome_Some in Hfind as (c & _ & Hfind).
    apply firstSome_Some in Hfind as (r & _ & Hfind).
    apply firstSome_Some in Hfind as (d & Hd & Hfind).
    destruct (collectLine b p c r d.1 d.2) as [cs |] eqn:Hcs; [| discriminate].
    injection Hfind as <-.
    apply collectLine_sound in Hcs as [-> Hall].
    exists c, r, d. done. }
  split; [split |].
  - intros Hfind. destruct (findWinningLine b p) as [line |] eqn:Hline; [| done].
    destruct (Hsound line eq_refl) as (c & r & d & Hd & _ & _ & Hall).
    exists c, r, d. done.
  - intros (c & r & d & Hd & Hall) Hnone.
    assert (is_Some (findWinningLine b p)) as [line Hline];
      [| rewrite Hline in Hnone; discriminate].
    destruct (Hall 0 ltac:(lia)) as [[Hc Hr] _].
    unfold findWinningLine.
    apply (firstSome_hit _ _ c); [apply elem_of_seqZ; lia |].
    apply (firstSome_hit _ _ r); [apply elem_of_seqZ; lia |].
    apply (firstSome_hit _ _ d); [done |].
    rewrite (collectLine_complete b p c r d.1 d.2 Hall). by eexists.
  - intros line Hfind.
    destruct (Hsound line Hfind) as (c & r & d & Hd & Hp & Hcells & Hall).
    split; [done |]. split; [by rewrite Hcells |].
    split; [by exists c, r, d |].
    intros x Hx. rewrite Hcells in Hx. unfold lineCells in Hx.
    apply list_elem_of_fmap in Hx as (i & -> & Hi). simpl.
    apply Hall.
    repeat (apply elem_of_cons in Hi as [-> | Hi]; [lia |]).
    by apply elem_of_nil in Hi.
Qed.

(** [findWinningLine_iff_four_connected] on a board where blue holds the
    four bottom cells of column 0: the line found is that column. *)
Lemma findWinningLine_iff_four_connected_witness :
  wf_board blueColumnBoard ∧ hasLine blueColumnBoard Human.
Proof.
  split; [by_eval |].
  apply (findWinningLine_iff_four_connected blueColumnBoard Human);
    [by_eval |].
  by vm_compute.
Defined.

(** ** Tokens of the history *)

Lemma scan_app_marker (h t : string) (m : ascii) :
  isDigit m = false →
  scan (h +:+ String m t) =
    ((scan h).1,
     (scan h).2 ++ {| marker := m; digits := (scan t).1 |} :: (scan t).2).
Proof.
  intros Hm. induction h as [| a h IH]; simpl.
  - rewrite Hm. by destruct (scan t).
  - rewrite IH. destruct (scan h) as [ds ts]. simpl.
    by destruct (isDigit a).
Qed.

Lemma scan_column (c : Z) :
  0 <= c < WIDTH → scan (pretty c) = (pretty c, []).
Proof.
  unfold WIDTH. intros Hc.
  assert (c = 0 ∨ c = 1 ∨ c = 2 ∨ c = 3 ∨ c = 4 ∨ c = 5 ∨ c = 6)
    as [-> | [-> | [-> | [-> | [-> | [-> | ->]]]]]] by lia;
    by vm_compute.
Qed.

Lemma playerCode_marker (p : CellState) (t : string) :
  playerCode p +:+ t =
    String (if decide (p = Human) then "B"%char else "R"%char) t.
Proof. unfold playerCode. by case_decide. Qed.

Lemma isDigit_playerCode (p : CellState) :
  isDigit (if decide (p = Human) then "B"%char else "R"%char) = false.
Proof. by case_decide. Qed.

Lemma tokens_append (h : string) (p : CellState) (c : Z) :
  0 <= c < WIDTH →
  tokens (h +:+ (playerCode p +:+ pretty c)) =
    tokens h ++
      [{| marker := if decide (p = Human) then "B"%char else "R"%char;
          digits := pretty c |}].
Proof.
  intros Hc. unfold tokens.
  rewrite playerCode_marker, scan_app_marker by apply isDigit_playerCode.
  by rewrite scan_column.
Qed.

(** The token [appendHistory] writes for column [c] holds the numeral of
    [c] itself. *)
Lemma tokens_appendHistory (p : CellState) (c : Z) (w : World) :
  0 <= c < WIDTH →
  tokens (history (state (appendHistory p c w))) =
    tokens (history (state w)) ++
      [{| marker := if decide (p = Human) then "B"%char else "R"%char;
          digits := pretty c |}].
Proof. intros Hc. unfold appendHistory. simpl. by apply tokens_append. Qed.

(** ** What each function leaves alone *)

Lemma setBoard_same (w : World) : setBoard (board (state w)) w = w.
Proof. by destruct w as [[] ? ? ? ?]. Qed.

Lemma dropPiece_failed (b : Board) (p : CellState) (c : Z) :
  (dropPiece b p c).2 = -1 → dropPiece b p c = (b, -1) ∧ columnFull b c.
Proof.
  destruct (dropPiece_spec b p c) as [[Heq Hfull] | (r & Hr & _ & _ & Heq)];
    rewrite Heq; simpl; [done | lia].
Qed.

Lemma dropPiece_full (b : Board) (p : CellState) (c : Z) :
  columnFull b c → dropPiece b p c = (b, -1).
Proof.
  intros Hfull.
  destruct (dropPiece_spec b p c) as [[Heq _] | (r & Hr & He & _ & _)];
    [done |]. by destruct (Hfull r Hr).
Qed.

(** ** aiMove *)

(** C9: when the request of aiMove fails (a rejected promise, a response
    that is not ok, or a column on which dropPiece returns -1), aiMove
    leaves state (board, history, level, busy) as it found it, and also
    winLine; it only sets the status text to the error. *)
Theorem aiMove_failure_leaves_state (r : FetchOutcome) (w : World) :
  match r with
  | Rejected _ | NotOk _ => True
  | Json column => (dropPiece (board (state w)) AI column).2 = -1
  end →
  state (aiMove_settle r w) = state w ∧
  winLine (aiMove_settle r w) = winLine w ∧
  suspended (aiMove_settle r w) = suspended w ∧
  requests (aiMove_settle r w) = requests w ∧
  ∃ message, status (aiMove_settle r w) = "API error: " +:+ message.
Proof.
  destruct r as [message | text | column]; intros Hfail.
  - repeat split; by eexists.
  - repeat split; by eexists.
  - apply dropPiece_failed in Hfail as [Hdrop _].
    unfold aiMove_settle, aiMove_try. rewrite Hdrop.
    rewrite decide_True by done. rewrite setBoard_same.
    repeat split; by eexists.
Qed.

(** [aiMove_failure_leaves_state] when the server answers column 7. *)
Lemma aiMove_failure_leaves_state_witness :
  (dropPiece (board (state initialWorld)) AI 7).2 = -1 ∧
  state (aiMove_settle (Json 7) initialWorld) = state initialWorld.
Proof.
  split; [by_eval |].
  apply (aiMove_failure_leaves_state (Json 7) initialWorld). by_eval.
Defined.

(** C7: aiMove hands the column k of the response to dropPiece as it is:
    the board after it is the board dropPiece(2, k) leaves.  So for k in
    [0,6] with room in column k the red piece lands in column k of the
    board, on its lowest empty row, no other cell changes, and the token
    written to the history carries the same k. *)
Theorem aiMove_drops_in_response_column (k : Z) (w : World) :
  wf_board (board (state w)) → 0 <= k < WIDTH →
  board (state (aiMove_settle (Json k) w)) =
    (dropPiece (board (state w)) AI k).1 ∧
  (¬ columnFull (board (state w)) k →
   ∃ r, 0 <= r < HEIGHT ∧
     cellAt (board (state w)) r k = Some Empty ∧
     (∀ r', 0 <= r' < r → cellAt (board (state w)) r' k ≠ Some Empty) ∧
     cellAt (board (state (aiMove_settle (Json k) w))) r k = Some AI ∧
     (∀ r' c', ¬ (r' = r ∧ c' = k) →
        cellAt (board (state (aiMove_settle (Json k) w))) r' c' =
        cellAt (board (state w)) r' c') ∧
     history (state (aiMove_settle (Json k) w)) =
       history (state w) +:+ ("R" +:+ pretty k)).
Proof.
  intros _ _. unfold aiMove_settle, aiMove_try.
  destruct (dropPiece_spec (board (state w)) AI k)
    as [[Heq Hfull] | (r & Hr & He & Hlow & Heq)]; rewrite Heq.
  - rewrite decide_True by done. split; [done |]. by intros [].
  - rewrite decide_False by lia. simpl. split; [done |].
    intros _. exists r. split; [done |]. split; [done |]. split; [done |].
    split; [| split; [| done]].
    + rewrite (cellAt_setCell _ _ _ Empty) by done. by rewrite decide_True.
    + intros r' c' Hne. rewrite (cellAt_setCell _ _ _ Empty) by done.
      by rewrite decide_False.
Qed.

(** [aiMove_drops_in_response_column] for the answer 4 on the fresh page. *)
Lemma aiMove_drops_in_response_column_witness :
  wf_board (board (state initialWorld)) ∧ 0 <= 4 < WIDTH ∧
  board (state (aiMove_settle (Json 4) initialWorld)) =
    (dropPiece (board (state initialWorld)) AI 4).1.
Proof.
  split; [by_eval |]. split; [by_eval |].
  apply (aiMove_drops_in_response_column 4 initialWorld); by_eval.
Defined.

(** ** Runs and invariants *)

Lemma run_invariant (I : World → Prop) :
  (∀ e w w', I w → step e w = Some w' → I w') →
  ∀ evs w w', I w → run evs w = Some w' → I w'.
Proof.
  intros Hstep evs. induction evs as [| e evs IH]; intros w w' Hw Hrun.
  - by injection Hrun as <-.
  - simpl in Hrun. destruct (step e w) as [w1 |] eqn:He; [| done].
    simpl in Hrun. eapply IH; [| done]. by eapply Hstep.
Qed.

Lemma resume_Some (st : Stage) (w w' : World) :
  resume st w = Some w' →
  state w' = state w ∧ winLine w' = winLine w ∧ status w' = status w ∧
  requests w' = requests w ∧ takeStage st (suspended w) = Some (suspended w').
Proof.
  unfold resume. destruct (takeStage st (suspended w)) as [l |]; [| done].
  simpl. by intros [= <-].
Qed.

Lemma handleMove_level (col : Z) (w : World) :
  level (state (handleMove col w)) = level (state w) ∧
  requests (handleMove col w) = requests w.
Proof.
  unfold handleMove. destruct (busy (state w)); [done |].
  simpl. destruct (dropPiece _ _ _) as [b' row]. by case_decide.
Qed.

Lemma aiMove_settle_level (r : FetchOutcome) (w : World) :
  level (state (aiMove_settle r w)) = level (state w) ∧
  requests (aiMove_settle r w) = requests w.
Proof.
  unfold aiMove_settle, aiMove_try. destruct r as [m | t | k]; [done | done |].
  destruct (dropPiece _ _ _) as [b' row]. by case_decide.
Qed.

Lemma step_levelInv (e : Event) (w w' : World) :
  levelInv w → step e w = Some w' → levelInv w'.
Proof.
  intros [Hlevel Hsent] Hstep. unfold levelInv.
  destruct e as [col | v | | | r |]; simpl in Hstep.
  - injection Hstep as <-. unfold canvasClick. case_bool_decide; [done |].
    destruct (handleMove_level col w) as [-> ->]. done.
  - case_bool_decide; [| done]. by injection Hstep as <-.
  - by injection Hstep as <-.
  - apply fmap_Some in Hstep as (w1 & Hres & ->).
    apply resume_Some in Hres as (Hst & _ & _ & Hrq & _).
    simpl. rewrite Hst, Hrq. split; [done |].
    intros rq [Hin | Hnew%list_elem_of_singleton]%elem_of_app;
      [by apply Hsent | by subst rq].
  - apply fmap_Some in Hstep as (w1 & Hres & ->).
    apply resume_Some in Hres as (Hst & _ & _ & Hrq & _).
    simpl. destruct (aiMove_settle_level r w1) as [-> ->].
    by rewrite Hst, Hrq.
  - apply fmap_Some in Hstep as (w1 & Hres & ->).
    apply resume_Some in Hres as (Hst & _ & _ & Hrq & _).
    simpl. by rewrite Hst, Hrq.
Qed.

(** C8: in every state the page reaches, state.level lies in [1,15], and so
    does the level parameter of every /api/move request sent so far: level
    starts at 7 and is assigned only from the slider, declared with min 1
    and max 15. *)
Theorem level_within_slider_range (evs : list Event) (w : World) :
  run evs initialWorld = Some w →
  1 <= level (state w) <= 15 ∧
  ∀ rq, rq ∈ requests w → 1 <= levelParam rq <= 15.
Proof.
  intros Hrun.
  apply (run_invariant levelInv step_levelInv evs initialWorld w); [| done].
  split; [by_eval |]. intros rq Hrq. by apply elem_of_nil in Hrq.
Qed.

(** ** Column counts of the board and of the history *)

Lemma wf_cellAt_inBounds (b : Board) (r c : Z) (x : CellState) :
  wf_board b → cellAt b r c = Some x → inBounds c r.
Proof.
  intros [Hlen Hrows] Hx.
  pose proof (cellAt_Some_nonneg _ _ _ _ Hx) as [Hr Hc].
  unfold cellAt in Hx. rewrite bool_decide_eq_true_2 in Hx by done.
  destruct (b !! Z.to_nat r) as [cs |] eqn:Hcs; [| done]. simpl in Hx.
  apply lookup_lt_Some in Hx.
  rewrite Forall_forall in Hrows.
  rewrite (Hrows cs) in Hx by (eapply list_elem_of_lookup_2; done).
  apply lookup_lt_Some in Hcs.
  unfold inBounds, WIDTH, HEIGHT in *. lia.
Qed.

Lemma filter_length_same {A : Type} (P Q : A → Prop)
    `{∀ x, Decision (P x)} `{∀ x, Decision (Q x)} (l : list A) :
  (∀ y, y ∈ l → P y ↔ Q y) →
  length (filter Q l) = length (filter P l).
Proof.
  induction l as [| y l IH]; intros Hsame; [done |].
  rewrite !filter_cons.
  pose proof (Hsame y ltac:(left)) as Hy.
  assert (length (filter Q l) = length (filter P l)) as IH'
    by (apply IH; intros z Hz; apply Hsame; by right).
  repeat case_decide; simpl; rewrite ?IH'; tauto || done.
Qed.

Lemma filter_length_flip {A : Type} (P Q : A → Prop)
    `{∀ x, Decision (P x)} `{∀ x, Decision (Q x)} (l : list A) (x : A) :
  NoDup l → x ∈ l → ¬ P x → Q x →
  (∀ y, y ≠ x → P y ↔ Q y) →
  length (filter Q l) = S (length (filter P l)).
Proof.
  intros Hnd Hin HP HQ Hsame.
  induction l as [| y l IH]; [by apply elem_of_nil in Hin |].
  apply NoDup_cons in Hnd as [Hy Hnd].
  rewrite !filter_cons.
  apply elem_of_cons in Hin as [<- | Hin].
  - rewrite decide_True by done. rewrite (decide_False (P := P x)) by done.
    simpl. f_equal. apply filter_length_same.
    intros z Hz. apply Hsame. by intros ->.
  - assert (y ≠ x) as Hne by (by intros ->).
    pose proof (Hsame y Hne) as Hyx.
    pose proof (IH Hnd Hin) as IH'.
    repeat case_decide; simpl; rewrite ?IH'; tauto || done.
Qed.

Lemma columnFill_setCell (b : Board) (r col : Z) (p : CellState) (c : Z) :
  cellAt b r col = Some Empty → p ≠ Empty → 0 <= r < HEIGHT →
  columnFill (setCell b r col p) c =
    (columnFill b c + if decide (c = col) then 1 else 0)%nat.
Proof.
  intros He Hp Hr. unfold columnFill.
  assert (Hocc : ∀ r' c', occupied (setCell b r col p) r' c' ↔
            if decide (r' = r ∧ c' = col) then True else occupied b r' c').
  { intros r' c'. unfold occupied.
    rewrite (cellAt_setCell _ _ _ Empty) by done.
    case_decide; [| done]. split; [done |]. intros _. by exists p. }
  case_decide as Hc.
  - subst c. rewrite Nat.add_1_r.
    apply (filter_length_flip _ _ _ r).
    + apply NoDup_seqZ.
    + apply elem_of_seqZ. lia.
    + intros (q & Hq & Hne). congruence.
    + apply Hocc. by rewrite decide_True.
    + intros r' Hne. rewrite Hocc. by rewrite decide_False by tauto.
  - rewrite Nat.add_0_r. apply filter_length_same.
    intros r' _. rewrite Hocc. by rewrite decide_False by tauto.
Qed.

Lemma historyCount_append (h : string) (p : CellState) (col c : Z) :
  0 <= col < WIDTH →
  historyCount (h +:+ (playerCode p +:+ pretty col)) c =
    (historyCount h c + if decide (c = col) then 1 else 0)%nat.
Proof.
  intros Hcol. unfold historyCount, tokens.
  rewrite playerCode_marker, scan_app_marker by apply isDigit_playerCode.
  rewrite scan_column by done. simpl.
  rewrite filter_app, length_app. f_equal.
  rewrite filter_cons, filter_nil. simpl.
  destruct (decide (c = col)) as [-> | Hne].
  - by rewrite decide_True.
  - rewrite decide_False; [done |].
    intros Hd. apply (inj pretty) in Hd. congruence.
Qed.

Lemma agree_drop (b b' : Board) (h : string) (p : CellState) (col row : Z) :
  wf_board b →
  (∀ c, 0 <= c < WIDTH → columnFill b c = historyCount h c) →
  p ≠ Empty →
  dropPiece b p col = (b', row) → row ≠ -1 →
  wf_board b' ∧
  ∀ c, 0 <= c < WIDTH →
    columnFill b' c = historyCount (h +:+ (playerCode p +:+ pretty col)) c.
Proof.
  intros Hwf Hagree Hp Hdrop Hrow.
  destruct (dropPiece_spec b p col) as [[Heq _] | (r & Hr & He & _ & Heq)];
    rewrite Heq in Hdrop; injection Hdrop as <- <-; [done |].
  split; [by apply setCell_wf |].
  intros c Hc.
  destruct (wf_cellAt_inBounds b r col Empty Hwf He) as [Hcol _].
  rewrite columnFill_setCell, historyCount_append by done.
  by rewrite Hagree.
Qed.

Lemma handleMove_cases (col : Z) (w : World) :
  (state (handleMove col w) = state w ∧
   suspended (handleMove col w) = suspended w ∧
   (busy (state w) = true ∨ columnFull (board (state w)) col)) ∨
  (∃ b' row, dropPiece (board (state w)) Human col = (b', row) ∧
     row ≠ -1 ∧ busy (state w) = false ∧
     board (state (handleMove col w)) = b' ∧
     history (state (handleMove col w)) =
       history (state w) +:+ (playerCode Human +:+ pretty col) ∧
     busy (state (handleMove col w)) = true ∧
     suspended (handleMove col w) = AwaitAnimations1 :: suspended w).
Proof.
  unfold handleMove. destruct (busy (state w)) eqn:Hbusy; [left; auto |].
  simpl. destruct (dropPiece _ _ _) as [b' row] eqn:Hdrop.
  case_decide as Hrow.
  - left. subst row.
    destruct (dropPiece_failed (board (state w)) Human col) as [Heq Hfull];
      [by rewrite Hdrop |].
    rewrite Heq in Hdrop. injection Hdrop as <-.
    split; [| auto]. destruct w as [[] ? ? ? ?]. simpl in *. by subst.
  - right. by exists b', row.
Qed.

Lemma aiMove_settle_cases (r : FetchOutcome) (w : World) :
  suspended (aiMove_settle r w) = suspended w ∧
  ((state (aiMove_settle r w) = state w ∧
    match r with
    | Json column => (dropPiece (board (state w)) AI column).2 = -1
    | _ => True
    end) ∨
   (∃ column b' row, r = Json column ∧
      dropPiece (board (state w)) AI column = (b', row) ∧ row ≠ -1 ∧
      board (state (aiMove_settle r w)) = b' ∧
      history (state (aiMove_settle r w)) =
        history (state w) +:+ (playerCode AI +:+ pretty column) ∧
      busy (state (aiMove_settle r w)) = busy (state w))).
Proof.
  destruct r as [m | t | k]; [by split; [| left] | by split; [| left] |].
  unfold aiMove_settle, aiMove_try.
  destruct (dropPiece _ _ _) as [b' row] eqn:Hdrop.
  case_decide as Hrow.
  - split; [done |]. left. subst row.
    destruct (dropPiece_failed (board (state w)) AI k) as [Heq _];
      [by rewrite Hdrop |].
    rewrite Heq in Hdrop. injection Hdrop as <-.
    by rewrite setBoard_same.
  - split; [done |]. right. by exists k, b', row.
Qed.

Lemma step_countsAgree (e : Event) (w w' : World) :
  countsAgree w → step e w = Some w' → countsAgree w'.
Proof.
  intros [Hwf Hagree] Hstep. unfold countsAgree.
  destruct e as [col | v | | | r |]; simpl in Hstep.
  - injection Hstep as <-. unfold canvasClick. case_bool_decide; [done |].
    destruct (handleMove_cases col w)
      as [(-> & _) | (b' & row & Hdrop & Hrow & _ & -> & -> & _)]; [done |].
    by eapply agree_drop.
  - case_bool_decide; [| done]. by injection Hstep as <-.
  - injection Hstep as <-. simpl. split; [apply emptyBoard_wf |].
    intros c Hc. unfold WIDTH in Hc.
    assert (c = 0 ∨ c = 1 ∨ c = 2 ∨ c = 3 ∨ c = 4 ∨ c = 5 ∨ c = 6)
      as [-> | [-> | [-> | [-> | [-> | [-> | ->]]]]]] by lia;
      by vm_compute.
  - apply fmap_Some in Hstep as (w1 & Hres & ->).
    apply resume_Some in Hres as (Hst & _). simpl. by rewrite Hst.
  - apply fmap_Some in Hstep as (w1 & Hres & ->).
    apply resume_Some in Hres as (Hst & _). simpl.
    destruct (aiMove_settle_cases r w1)
      as [_ [[-> _] | (k & b' & row & _ & Hdrop & Hrow & -> & -> & _)]].
    + by rewrite Hst.
    + rewrite Hst in *. by eapply agree_drop.
  - apply fmap_Some in Hstep as (w1 & Hres & ->).
    apply resume_Some in Hres as (Hst & _). simpl. by rewrite Hst.
Qed.

Lemma initialWorld_countsAgree : countsAgree initialWorld.
Proof.
  split; [apply emptyBoard_wf |].
  intros c Hc. unfold WIDTH in Hc.
  assert (c = 0 ∨ c = 1 ∨ c = 2 ∨ c = 3 ∨ c = 4 ∨ c = 5 ∨ c = 6)
    as [-> | [-> | [-> | [-> | [-> | [-> | ->]]]]]] by lia;
    by vm_compute.
Qed.

(** C6: in every state the page reaches, and for every column c in [0,6],
    the number of occupied cells of column c of state.board equals the
    number of tokens of state.history written for column c. *)
Theorem board_columns_match_history (evs : list Event) (w : World) :
  run evs initialWorld = Some w →
  ∀ c, 0 <= c < WIDTH →
    columnFill (board (state w)) c = historyCount (history (state w)) c.
Proof.
  intros Hrun.
  apply (run_invariant countsAgree step_countsAgree evs initialWorld w);
    [apply initialWorld_countsAgree | done].
Qed.

(** ** Alternation of the markers *)

Lemma alternates_nil : alternates [].
Proof. intros i t Hi. by rewrite lookup_nil in Hi. Qed.

Lemma alternates_snoc (ts : list Token) (t : Token) :
  alternates ts → marker t = markerAt (length ts) → alternates (ts ++ [t]).
Proof.
  intros Hts Ht i t' Hi.
  apply lookup_app_Some in Hi as [Hi | [Hlen Hi]]; [by apply Hts |].
  apply list_lookup_singleton_Some in Hi as [Hi <-].
  rewrite Ht. f_equal. lia.
Qed.

Lemma even_length_snoc {A : Type} (l : list A) (x : A) :
  Nat.even (length (l ++ [x])) = negb (Nat.even (length l)).
Proof.
  rewrite length_app. simpl. rewrite Nat.add_1_r, Nat.even_succ.
  by rewrite <- Nat.negb_even.
Qed.

Lemma turnInv_takeStage (w : World) (st : Stage) (l : list Stage) :
  turnInv w → takeStage st (suspended w) = Some l →
  suspended w = [st] ∧ l = [].
Proof.
  intros [_ Hturn] Htake.
  destruct (suspended w) as [| st0 [| st1 l0]]; simpl in *.
  - done.
  - case_decide; [| done]. injection Htake as <-. by subst.
  - by destruct st0.
Qed.

Lemma runNominal_run (evs : list Event) (w w' : World) :
  runNominal evs w = Some w' → run evs w = Some w'.
Proof.
  revert w. induction evs as [| e evs IH]; intros w Hrun; [done |].
  simpl in *. destruct (nominal e w); [| done].
  destruct (step e w) as [w1 |]; [| done]. simpl in *. by apply IH.
Qed.

Lemma runNominal_invariant (I : World → Prop) :
  (∀ e w w', I w → nominal e w = true → step e w = Some w' → I w') →
  ∀ evs w w', I w → runNominal evs w = Some w' → I w'.
Proof.
  intros Hstep evs. induction evs as [| e evs IH]; intros w w' Hw Hrun.
  - by injection Hrun as <-.
  - simpl in Hrun. destruct (nominal e w) eqn:Hnom; [| done].
    destruct (step e w) as [w1 |] eqn:He; [| done].
    simpl in Hrun. eapply IH; [| done]. by eapply Hstep.
Qed.

Lemma step_turnInv (e : Event) (w w' : World) :
  countsAgree w ∧ turnInv w → nominal e w = true → step e w = Some w' →
  countsAgree w' ∧ turnInv w'.
Proof.
  intros [Hagree [Halt Hturn]] Hnom Hstep.
  split; [by eapply step_countsAgree |].
  destruct Hagree as [Hwf _]. unfold turnInv.
  destruct e as [col | v | | | r |]; simpl in Hstep, Hnom.
  - injection Hstep as <-. unfold canvasClick.
    case_bool_decide as Hcol; [done |].
    destruct (handleMove_cases col w)
      as [(-> & -> & _) | (b' & row & _ & _ & Hbusy & _ & -> & -> & ->)];
      [done |].
    destruct (suspended w) as [| st [| st' l]]; simpl in Hturn |- *;
      [| destruct st; destruct Hturn; congruence | by destruct st].
    destruct Hturn as [Hb Hev].
    rewrite tokens_append by lia. rewrite decide_True by done.
    rewrite even_length_snoc, Hev. split; [| done].
    apply alternates_snoc; [done |]. unfold markerAt. by rewrite Hev.
  - case_bool_decide; [| done]. by injection Hstep as <-.
  - injection Hstep as <-. apply bool_decide_eq_true_1 in Hnom.
    simpl. rewrite Hnom. split; [apply alternates_nil | done].
  - apply fmap_Some in Hstep as (w1 & Hres & ->).
    apply resume_Some in Hres as (Hst & _ & _ & _ & Htake).
    apply (turnInv_takeStage w) in Htake as [Hsus Hl]; [| done].
    rewrite Hsus in Hturn. destruct Hturn as [Hb Hev].
    simpl. by rewrite Hst, Hl.
  - apply fmap_Some in Hstep as (w1 & Hres & ->).
    apply resume_Some in Hres as (Hst & _ & _ & _ & Htake).
    apply (turnInv_takeStage w) in Htake as [Hsus Hl]; [| done].
    rewrite Hsus in Hturn. destruct Hturn as [Hb Hev]. simpl.
    destruct (aiMove_settle_cases r w1)
      as [-> [[_ Hfail] | (k & b' & row & -> & Hdrop & Hrow & _ & -> & ->)]].
    + destruct r as [m | t | k]; [done | done |].
      apply bool_decide_eq_true_1 in Hnom. by rewrite <- Hst in Hnom.
    + rewrite Hl, Hst in *.
      destruct (dropPiece_spec (board (state w)) AI k)
        as [[Heq _] | (r & Hr & He & _ & Heq)];
        rewrite Heq in Hdrop; injection Hdrop as <- <-; [done |].
      destruct (wf_cellAt_inBounds _ r k Empty Hwf He) as [Hk _].
      rewrite tokens_append by done. rewrite decide_False by done.
      rewrite even_length_snoc, Hev. split; [| done].
      apply alternates_snoc; [done |]. unfold markerAt. by rewrite Hev.
  - apply fmap_Some in Hstep as (w1 & Hres & ->).
    apply resume_Some in Hres as (Hst & _ & _ & _ & Htake).
    apply (turnInv_takeStage w) in Htake as [Hsus Hl]; [| done].
    rewrite Hsus in Hturn. destruct Hturn as [Hb Hev].
    simpl. by rewrite Hst, Hl.
Qed.

(** X17: along every run in which each AI request brings back a column
    that admits a drop and Reset is pressed only while no move is in
    flight, the history starts with B and its markers alternate, B at even
    token indices and R at odd ones. *)
Theorem history_alternates_on_nominal_runs (evs : list Event) (w : World) :
  runNominal evs initialWorld = Some w →
  run evs initialWorld = Some w ∧
  alternates (tokens (history (state w))) ∧
  ∀ t, head (tokens (history (state w))) = Some t → marker t = "B"%char.
Proof.
  intros Hrun. split; [by apply runNominal_run |].
  assert (countsAgree w ∧ turnInv w) as [_ [Halt _]].
  { apply (runNominal_invariant _ step_turnInv evs initialWorld w); [| done].
    split; [apply initialWorld_countsAgree |].
    split; [apply alternates_nil | done]. }
  split; [done |]. intros t Ht. apply (Halt 0%nat).
  by rewrite <- head_lookup.
Qed.

(** C3 at a failed request: a click on column 0 writes B0, the request is
    rejected and writes nothing, the page is free again, and a second click
    on column 0 writes B0 once more.  The history is then B0B0, with B at
    token index 1 where the markers should have R, both pieces are blue,
    and the next request carries that history to the server. *)
Theorem failed_request_history :
  run failedRequestRun initialWorld = Some afterFailedRequest ∧
  history (state afterFailedRequest) = "B0B0" ∧
  tokens "B0B0" = [{| marker := "B"; digits := "0" |};
                   {| marker := "B"; digits := "0" |}] ∧
  markerAt 1 = "R"%char ∧
  cellAt (board (state afterFailedRequest)) 0 0 = Some Human ∧
  cellAt (board (state afterFailedRequest)) 1 0 = Some Human ∧
  requests (worldAfter (failedRequestRun ++ [AnimationsSettled1])) =
    [{| position := "B0"; levelParam := 7 |};
     {| position := "B0B0"; levelParam := 7 |}].
Proof. by vm_compute. Qed.

(** So not every history the page reaches alternates: after a failed
    request the blue move stays in the history, no red move follows it, and
    the next click adds a second blue token. *)
Lemma failed_request_breaks_alternation : ¬ historyAlwaysAlternates.
Proof.
  intros Hclaim.
  pose proof (Hclaim failedRequestRun afterFailedRequest eq_refl
                1%nat {| marker := "B"; digits := "0" |} eq_refl) as Hmarker.
  vm_compute in Hmarker. discriminate Hmarker.
Qed.

(** Reset pressed while a move is in flight also breaks it: the page is
    cleared, and the answer of the pending request is then recorded on the
    empty history, which starts with R. *)
Example reset_in_flight_starts_with_R :
  history (state afterResetInFlight) = "R3" ∧
  run resetInFlightRun initialWorld = Some afterResetInFlight.
Proof. by vm_compute. Qed.

(** [history_alternates_on_nominal_runs] on the game B3 R3 B2 R4. *)
Lemma history_alternates_on_nominal_runs_witness :
  runNominal (playRound 3 3 ++ playRound 2 4) initialWorld =
    Some afterTwoRounds ∧
  history (state afterTwoRounds) = "B3R3B2R4" ∧
  alternates (tokens (history (state afterTwoRounds))).
Proof.
  split; [by vm_compute |]. split; [by vm_compute |].
  apply (history_alternates_on_nominal_runs (playRound 3 3 ++ playRound 2 4)).
  by vm_compute.
Defined.

(** [board_columns_match_history] after B3 R3 B2 R4, column 3. *)
Lemma board_columns_match_history_witness :
  run (playRound 3 3 ++ playRound 2 4) initialWorld = Some afterTwoRounds ∧
  columnFill (board (state afterTwoRounds)) 3 =
    historyCount (history (state afterTwoRounds)) 3.
Proof.
  split; [by vm_compute |].
  apply (board_columns_match_history (playRound 3 3 ++ playRound 2 4));
    [by vm_compute | by_eval].
Defined.

(** [level_within_slider_range] with the slider at 15 and one move played. *)
Lemma level_within_slider_range_witness :
  run (LevelInput 15 :: playRound 3 3) initialWorld = Some afterLevel15 ∧
  1 <= level (state afterLevel15) <= 15.
Proof.
  split; [by vm_compute |].
  apply (level_within_slider_range (LevelInput 15 :: playRound 3 3)).
  by vm_compute.
Defined.

(** ** Clicks after a win *)

(** Blue wins on column 0, the page goes on: the line is found, the page
    is not busy, and a click on column 0 drops a fifth blue piece and
    writes its token. *)
Example blue_wins_then_click_0 :
  run blueWinsRun initialWorld = Some afterBlueWins ∧
  findWinningLine (board (state afterBlueWins)) Human =
    Some {| player := Human; cells := lineCells 0 0 0 1 |} ∧
  busy (state afterBlueWins) = false ∧
  history (state afterBlueWins) = "B0R1B0R1B0R1B0" ∧
  history (state (canvasClick 0 afterBlueWins)) = "B0R1B0R1B0R1B0B0" ∧
  cellAt (board (state afterBlueWins)) 4 0 = Some Empty ∧
  cellAt (board (state (canvasClick 0 afterBlueWins))) 4 0 = Some Human.
Proof. by vm_compute. Qed.



(** ** The digit written for a column *)

(** C1 at column 0: a click on column 0 of the fresh page makes the
    request carry the history B0.  Its token holds the digit 0, the column
    as the page counts it, and not the wire digit 1 of column 0 + 1. *)
Theorem click_column_0_sends_digit_0 :
  run [CanvasClick 0; AnimationsSettled1] initialWorld = Some afterClick0 ∧
  requests afterClick0 = [{| position := "B0"; levelParam := 7 |}] ∧
  tokens "B0" = [{| marker := "B"; digits := "0" |}] ∧
  "0"%string ≠ pretty (0 + 1).
Proof. by vm_compute. Qed.

(** * Further properties *)

(** ** Gravity and the capacity of a column *)

Lemma occupied_setCell (b : Board) (r c : Z) (p : CellState) (r' c' : Z) :
  cellAt b r c = Some Empty → p ≠ Empty →
  occupied (setCell b r c p) r' c' ↔ (r' = r ∧ c' = c) ∨ occupied b r' c'.
Proof.
  intros He Hp. unfold occupied.
  rewrite (cellAt_setCell _ _ _ Empty) by done.
  case_decide as Hsame.
  - split; [by left |]. intros _. by exists p.
  - split; [by right |]. by intros [? | ?].
Qed.

Lemma emptyBoard_settled : settled emptyBoard.
Proof.
  intros r c (p & Hp & Hne) r' Hr'. exfalso.
  destruct (wf_cellAt_inBounds _ _ _ _ emptyBoard_wf Hp) as [Hc Hr].
  unfold WIDTH, HEIGHT in *.
  assert (r = 0 ∨ r = 1 ∨ r = 2 ∨ r = 3 ∨ r = 4 ∨ r = 5)
    as [-> | [-> | [-> | [-> | [-> | ->]]]]] by lia;
  assert (c = 0 ∨ c = 1 ∨ c = 2 ∨ c = 3 ∨ c = 4 ∨ c = 5 ∨ c = 6)
    as [-> | [-> | [-> | [-> | [-> | [-> | ->]]]]]] by lia;
  vm_compute in Hp; congruence.
Qed.

Lemma settled_drop (b b' : Board) (p : CellState) (col row : Z) :
  wf_board b → settled b → p ≠ Empty →
  dropPiece b p col = (b', row) →
  wf_board b' ∧ settled b'.
Proof.
  intros Hwf Hset Hp Hdrop.
  destruct (dropPiece_spec b p col) as [[Heq _] | (r & Hr & He & Hlow & Heq)];
    rewrite Heq in Hdrop; injection Hdrop as <- <-; [done |].
  split; [by apply setCell_wf |].
  destruct (wf_cellAt_inBounds b r col Empty Hwf He) as [Hcol _].
  intros r1 c1 Hocc r' Hr'.
  apply (occupied_setCell _ _ _ _ _ _ He Hp). right.
  apply (occupied_setCell _ _ _ _ _ _ He Hp) in Hocc as [[-> ->] | Hocc].
  - apply wf_occupied; [done | unfold inBounds; lia |]. apply Hlow. lia.
  - by apply (Hset r1 c1).
Qed.

Lemma step_boardInv (e : Event) (w w' : World) :
  boardInv w → step e w = Some w' → boardInv w'.
Proof.
  intros [Hwf Hset] Hstep. unfold boardInv.
  destruct e as [col | v | | | r |]; simpl in Hstep.
  - injection Hstep as <-. unfold canvasClick. case_bool_decide; [done |].
    destruct (handleMove_cases col w)
      as [(-> & _) | (b' & row & Hdrop & _ & _ & -> & _)]; [done |].
    by apply (settled_drop (board (state w)) b' Human col row).
  - case_bool_decide; [| done]. by injection Hstep as <-.
  - injection Hstep as <-. simpl.
    split; [apply emptyBoard_wf | apply emptyBoard_settled].
  - apply fmap_Some in Hstep as (w1 & Hres & ->).
    apply resume_Some in Hres as (Hst & _). simpl. by rewrite Hst.
  - apply fmap_Some in Hstep as (w1 & Hres & ->).
    apply resume_Some in Hres as (Hst & _). simpl.
    destruct (aiMove_settle_cases r w1)
      as [_ [[-> _] | (k & b' & row & _ & Hdrop & _ & -> & _)]].
    + by rewrite Hst.
    + rewrite Hst in *.
      by apply (settled_drop (board (state w)) b' AI k row).
  - apply fmap_Some in Hstep as (w1 & Hres & ->).
    apply resume_Some in Hres as (Hst & _). simpl. by rewrite Hst.
Qed.

(** X1: in every state the page reaches the board has six rows of seven
    cells and no piece hangs in the air: every cell below a piece holds a
    piece. *)
Theorem board_stays_settled (evs : list Event) (w : World) :
  run evs initialWorld = Some w →
  wf_board (board (state w)) ∧ settled (board (state w)).
Proof.
  intros Hrun.
  apply (run_invariant boardInv step_boardInv evs initialWorld w); [| done].
  split; [apply emptyBoard_wf | apply emptyBoard_settled].
Qed.

(** [board_stays_settled] after the game B3 R3 B2 R4. *)
Lemma board_stays_settled_witness :
  run (playRound 3 3 ++ playRound 2 4) initialWorld = Some afterTwoRounds ∧
  settled (board (state afterTwoRounds)).
Proof.
  split; [by vm_compute |].
  apply (board_stays_settled (playRound 3 3 ++ playRound 2 4)).
  by vm_compute.
Defined.

Lemma columnFill_below (b : Board) (c r : Z) :
  0 <= r <= HEIGHT →
  (∀ r', 0 <= r' < HEIGHT → occupied b r' c ↔ r' < r) →
  columnFill b c = Z.to_nat r.
Proof.
  intros Hr Hocc. unfold columnFill.
  rewrite (filter_length_same (λ r', r' < r) (λ r', occupied b r' c)).
  - unfold HEIGHT in *.
    assert (r = 0 ∨ r = 1 ∨ r = 2 ∨ r = 3 ∨ r = 4 ∨ r = 5 ∨ r = 6)
      as [-> | [-> | [-> | [-> | [-> | [-> | ->]]]]]] by lia;
      by vm_compute.
  - intros r' Hr'%elem_of_seqZ. symmetry. apply Hocc. lia.
Qed.

(** X2: on a board of the page (7x6, no piece hanging) and for a column c
    in [0,6], dropPiece returns the number of pieces the column holds, which
    is the row the new piece takes; with six pieces in the column it
    returns -1. *)
Theorem dropPiece_returns_column_fill (b : Board) (p : CellState) (c : Z) :
  wf_board b → settled b → 0 <= c < WIDTH →
  (dropPiece b p c).2 =
    if decide (columnFill b c = 6%nat) then -1
    else Z.of_nat (columnFill b c).
Proof.
  intros Hwf Hset Hc.
  destruct (dropPiece_spec b p c) as [[Heq Hfull] | (r & Hr & He & Hlow & Heq)];
    rewrite Heq; simpl.
  - rewrite (columnFill_below b c HEIGHT); [by rewrite decide_True | done |].
    intros r' Hr'. split; [lia |]. intros _.
    apply wf_occupied; [done | done |]. by apply Hfull.
  - rewrite (columnFill_below b c r).
    + unfold HEIGHT in Hr. rewrite decide_False by lia. lia.
    + lia.
    + intros r' Hr'. split.
      * intros Hocc. destruct (decide (r' < r)) as [| Hge]; [done |].
        exfalso. destruct (decide (r' = r)) as [-> | Hne].
        -- destruct Hocc as (q & Hq & Hqe). congruence.
        -- destruct (Hset r' c Hocc r) as (q & Hq & Hqe); [lia | congruence].
      * intros Hlt. apply wf_occupied; [done | unfold inBounds; lia |].
        apply Hlow. lia.
Qed.

(** [dropPiece_returns_column_fill] on column 0 of the board where blue
    holds four cells of it. *)
Lemma dropPiece_returns_column_fill_witness :
  wf_board (board (state afterBlueWins)) ∧
  settled (board (state afterBlueWins)) ∧
  (dropPiece (board (state afterBlueWins)) AI 0).2 = 4.
Proof.
  assert (Hrun : run blueWinsRun initialWorld = Some afterBlueWins)
    by (by vm_compute).
  destruct (run_invariant boardInv step_boardInv blueWinsRun initialWorld
              afterBlueWins) as [Hwf Hset]; [| done |].
  { split; [apply emptyBoard_wf | apply emptyBoard_settled]. }
  split; [done |]. split; [done |].
  rewrite (dropPiece_returns_column_fill _ AI 0 Hwf Hset); [| by_eval].
  by vm_compute.
Defined.

(** ** Columns off the board *)

Lemma dropPiece_off_board (b : Board) (p : CellState) (c : Z) :
  wf_board b → ¬ (0 <= c < WIDTH) → dropPiece b p c = (b, -1).
Proof.
  intros Hwf Hc. apply dropPiece_full. intros r Hr He.
  by destruct (wf_cellAt_inBounds b r c Empty Hwf He) as [Hin _].
Qed.

(** X3: a column outside [0,6] is refused everywhere.  On a 7x6 board
    dropPiece returns -1 for it and leaves the board alone; a click path
    that reaches handleMove with it changes nothing but ends not busy; and
    when the server answers with it, aiMove leaves state as it is and
    reports that the AI attempted an illegal column. *)
Theorem column_off_board_is_refused (c : Z) (w : World) :
  wf_board (board (state w)) → ¬ (0 <= c < WIDTH) →
  (∀ p, dropPiece (board (state w)) p c = (board (state w), -1)) ∧
  (busy (state w) = false → handleMove c w = w) ∧
  state (aiMove_settle (Json c) w) = state w ∧
  status (aiMove_settle (Json c) w) =
    "API error: AI attempted an illegal column"%string.
Proof.
  intros Hwf Hc.
  pose proof (λ p, dropPiece_off_board _ p c Hwf Hc) as Hdrop.
  split; [done |]. split; [| split].
  - intros Hbusy. unfold handleMove. rewrite Hbusy. simpl.
    rewrite Hdrop. rewrite decide_True by done.
    destruct w as [[] ? ? ? ?]. simpl in *. by subst.
  - unfold aiMove_settle, aiMove_try. rewrite Hdrop.
    rewrite decide_True by done. by rewrite setBoard_same.
  - unfold aiMove_settle, aiMove_try. rewrite Hdrop.
    by rewrite decide_True by done.
Qed.

(** [column_off_board_is_refused] for the answer 7 on the fresh page. *)
Lemma column_off_board_is_refused_witness :
  wf_board (board (state initialWorld)) ∧ ¬ (0 <= 7 < WIDTH) ∧
  state (aiMove_settle (Json 7) initialWorld) = state initialWorld.
Proof.
  split; [by_eval |]. split; [by_eval |].
  apply (column_off_board_is_refused 7 initialWorld); by_eval.
Defined.

(** ** winLine follows the board *)

Lemma updateInfo_winLine_board (w1 w2 : World) :
  board (state w1) = board (state w2) →
  winLine (updateInfo w1) = winLine (updateInfo w2).
Proof. unfold updateInfo. simpl. by intros ->. Qed.

Lemma handleMove_winLine (col : Z) (w : World) :
  winLineFresh w → winLineFresh (handleMove col w).
Proof.
  unfold winLineFresh. intros Hw. unfold handleMove.
  destruct (busy (state w)); [done |]. simpl.
  destruct (dropPiece _ _ _) as [b' row] eqn:Hdrop.
  case_decide as Hrow; [| done]. subst row.
  destruct (dropPiece_failed (board (state w)) Human col) as [Heq _];
    [by rewrite Hdrop |].
  rewrite Heq in Hdrop. injection Hdrop as <-.
  simpl in *. done.
Qed.

Lemma aiMove_settle_winLine (r : FetchOutcome) (w : World) :
  winLineFresh w → winLineFresh (aiMove_settle r w).
Proof.
  unfold winLineFresh. intros Hw.
  destruct r as [m | t | k]; [done | done |].
  unfold aiMove_settle, aiMove_try.
  destruct (dropPiece _ _ _) as [b' row] eqn:Hdrop.
  case_decide as Hrow; [| done]. subst row.
  destruct (dropPiece_failed (board (state w)) AI k) as [Heq _];
    [by rewrite Hdrop |].
  rewrite Heq in Hdrop. injection Hdrop as <-.
  rewrite setBoard_same. done.
Qed.

Lemma step_winLineFresh (e : Event) (w w' : World) :
  winLineFresh w → step e w = Some w' → winLineFresh w'.
Proof.
  intros Hw Hstep.
  destruct e as [col | v | | | r |]; simpl in Hstep.
  - injection Hstep as <-. unfold canvasClick. case_bool_decide; [done |].
    by apply handleMove_winLine.
  - case_bool_decide; [| done]. by injection Hstep as <-.
  - by injection Hstep as <-.
  - apply fmap_Some in Hstep as (w1 & Hres & ->).
    apply resume_Some in Hres as (Hst & Hwl & _).
    unfold winLineFresh in *. simpl. rewrite Hwl, <- Hw.
    apply updateInfo_winLine_board. by rewrite Hst.
  - apply fmap_Some in Hstep as (w1 & Hres & ->).
    apply resume_Some in Hres as (Hst & Hwl & _).
    assert (winLineFresh w1) as Hw1.
    { unfold winLineFresh in *. rewrite Hwl, <- Hw.
      apply updateInfo_winLine_board. by rewrite Hst. }
    apply (aiMove_settle_winLine r) in Hw1. done.
  - by apply fmap_Some in Hstep as (w1 & Hres & ->).
Qed.

(** X4: in every state the page reaches, winLine is the line updateInfo
    would store for the board as it is: the first line findWinningLine
    finds for blue, else the one it finds for red, else null.  No path
    changes the board and leaves a stale line behind. *)
Theorem winLine_follows_board (evs : list Event) (w : World) :
  run evs initialWorld = Some w →
  winLine w =
    match findWinningLine (board (state w)) Human with
    | Some l => Some l
    | None => findWinningLine (board (state w)) AI
    end.
Proof.
  intros Hrun.
  assert (winLineFresh w) as Hw.
  { apply (run_invariant winLineFresh step_winLineFresh evs initialWorld w);
      [| done]. by vm_compute. }
  by rewrite <- Hw.
Qed.

(** [winLine_follows_board] after blue's four in column 0. *)
Lemma winLine_follows_board_witness :
  run blueWinsRun initialWorld = Some afterBlueWins ∧
  winLine afterBlueWins =
    Some {| player := Human; cells := lineCells 0 0 0 1 |}.
Proof.
  split; [by vm_compute |].
  rewrite (winLine_follows_board blueWinsRun afterBlueWins); by vm_compute.
Defined.

(** ** The busy flag *)

Lemma settleCall_run (st : Stage) (l : list Stage) (w : World) :
  suspended w = st :: l →
  ∃ w', run (settleCall st) w = Some w' ∧
    suspended w' = l ∧ busy (state w') = false ∧
    board (state w') = board (state w) ∧
    history (state w') = history (state w) ∧
    level (state w') = level (state w).
Proof.
  intros Hsus. destruct w as [[b h lv bu] wl stt sus rq]. simpl in Hsus.
  subst sus. destruct st; simpl; unfold resume; simpl;
    rewrite ?decide_True by done; simpl; eexists; (split; [done |]); done.
Qed.

Lemma settleAll_run (l : list Stage) (w : World) :
  suspended w = l →
  ∃ w', run (settleAll l) w = Some w' ∧
    suspended w' = [] ∧
    (l ≠ [] → busy (state w') = false) ∧
    board (state w') = board (state w) ∧
    history (state w') = history (state w) ∧
    level (state w') = level (state w).
Proof.
  revert w. induction l as [| st l IH]; intros w Hsus.
  - exists w. by repeat split.
  - destruct (settleCall_run st l w Hsus)
      as (w1 & Hrun1 & Hsus1 & Hbusy1 & Hb1 & Hh1 & Hl1).
    destruct (IH w1 Hsus1) as (w2 & Hrun2 & Hsus2 & Hbusy2 & Hb2 & Hh2 & Hl2).
    exists w2. split.
    { unfold settleAll. simpl. clear -Hrun1 Hrun2.
      revert w Hrun1. generalize (settleCall st) as evs.
      induction evs as [| e evs IHe]; intros w Hrun1; simpl in *.
      - by injection Hrun1 as ->.
      - destruct (step e w) as [w0 |]; [| done]. simpl in *. by apply IHe. }
    split; [done |]. split.
    { intros _. destruct l as [| st' l'].
      - unfold settleAll in Hrun2. simpl in Hrun2. by injection Hrun2 as <-.
      - by apply Hbusy2. }
    by rewrite Hb2, Hh2, Hl2.
Qed.

Lemma step_busyInv (e : Event) (w w' : World) :
  busyInv w → step e w = Some w' → busyInv w'.
Proof.
  unfold busyInv. intros Hw Hstep.
  destruct e as [col | v | | | r |]; simpl in Hstep.
  - injection Hstep as <-. unfold canvasClick. case_bool_decide; [done |].
    destruct (handleMove_cases col w)
      as [(-> & -> & _) | (b' & row & _ & _ & _ & _ & _ & _ & ->)]; done.
  - case_bool_decide; [| done]. by injection Hstep as <-.
  - by injection Hstep as <-.
  - by apply fmap_Some in Hstep as (w1 & Hres & ->).
  - by apply fmap_Some in Hstep as (w1 & Hres & ->).
  - by apply fmap_Some in Hstep as (w1 & Hres & ->).
Qed.

(** X5: busy never sticks.  In every state the page reaches, busy is set
    only while a handleMove call is suspended; and letting the suspended
    calls run to their end (animations done, requests settled, here all
    rejected) brings the page to rest: no call suspended, busy cleared,
    board, history and level as they were. *)
Theorem busy_is_always_released (evs : list Event) (w : World) :
  run evs initialWorld = Some w →
  (busy (state w) = true → suspended w ≠ []) ∧
  ∃ w', run (settleAll (suspended w)) w = Some w' ∧
    suspended w' = [] ∧
    busy (state w') = false ∧
    board (state w') = board (state w) ∧
    history (state w') = history (state w) ∧
    level (state w') = level (state w).
Proof.
  intros Hrun.
  assert (busyInv w) as Hbusy.
  { by apply (run_invariant busyInv step_busyInv evs initialWorld w). }
  split; [done |].
  destruct (settleAll_run (suspended w) w eq_refl)
    as (w' & Hrun' & Hsus & Hb & Hrest).
  exists w'. split; [done |]. split; [done |]. split; [| done].
  destruct (suspended w) as [| st l] eqn:Hl; [| by apply Hb].
  unfold settleAll in Hrun'. simpl in Hrun'. injection Hrun' as <-.
  destruct (busy (state w)) eqn:Hbu; [| done].
  by destruct (Hbusy Hbu).
Qed.

(** [busy_is_always_released] right after a click. *)
Lemma busy_is_always_released_witness :
  run [CanvasClick 3] initialWorld = Some (canvasClick 3 initialWorld) ∧
  busy (state (canvasClick 3 initialWorld)) = true ∧
  suspended (canvasClick 3 initialWorld) ≠ [].
Proof.
  split; [done |]. split; [by vm_compute |].
  apply (busy_is_always_released [CanvasClick 3]); by vm_compute.
Defined.

(** ** The history replays to the board *)

Lemma recorded_drop (ms : list (CellState * Z)) (b b' : Board) (h : string)
    (p : CellState) (col row : Z) :
  h = encodeMoves ms → tokens h = moveToken <$> ms →
  replayMoves ms = Some b →
  dropPiece b p col = (b', row) → row ≠ -1 → 0 <= col < WIDTH →
  h +:+ (playerCode p +:+ pretty col) = encodeMoves (ms ++ [(p, col)]) ∧
  tokens (h +:+ (playerCode p +:+ pretty col)) =
    moveToken <$> (ms ++ [(p, col)]) ∧
  replayMoves (ms ++ [(p, col)]) = Some b'.
Proof.
  intros Hh Htok Hre Hdrop Hrow Hcol. split; [| split].
  - unfold encodeMoves. rewrite foldl_snoc. by rewrite Hh.
  - rewrite tokens_append by done. by rewrite fmap_app, Htok.
  - unfold replayMoves in *. rewrite foldl_snoc, Hre. simpl.
    rewrite Hdrop. simpl. by rewrite decide_False.
Qed.

Lemma step_recorded (e : Event) (w w' : World) :
  boardInv w ∧ recorded w → step e w = Some w' → boardInv w' ∧ recorded w'.
Proof.
  intros [Hinv (ms & Hlegal & Hh & Htok & Hre)] Hstep.
  split; [by eapply step_boardInv |].
  destruct Hinv as [Hwf _]. unfold recorded.
  destruct e as [col | v | | | r |]; simpl in Hstep.
  - injection Hstep as <-. unfold canvasClick.
    case_bool_decide as Hcol; [by exists ms |].
    destruct (handleMove_cases col w)
      as [(-> & _) | (b' & row & Hdrop & Hrow & _ & -> & -> & _)];
      [by exists ms |].
    exists (ms ++ [(Human, col)]).
    destruct (recorded_drop ms _ b' _ Human col row Hh Htok Hre Hdrop Hrow)
      as (? & ? & ?); [lia |].
    split; [| done]. apply Forall_app. split; [done |].
    apply Forall_singleton. split; [by left | simpl; lia].
  - case_bool_decide; [| done]. injection Hstep as <-. by exists ms.
  - injection Hstep as <-. by exists [].
  - apply fmap_Some in Hstep as (w1 & Hres & ->).
    apply resume_Some in Hres as (Hst & _). simpl. rewrite Hst. by exists ms.
  - apply fmap_Some in Hstep as (w1 & Hres & ->).
    apply resume_Some in Hres as (Hst & _). simpl.
    destruct (aiMove_settle_cases r w1)
      as [_ [[-> _] | (k & b' & row & _ & Hdrop & Hrow & -> & -> & _)]].
    + rewrite Hst. by exists ms.
    + rewrite Hst in *.
      assert (0 <= k < WIDTH) as Hk.
      { destruct (dropPiece_spec (board (state w)) AI k)
          as [[Heq _] | (r0 & _ & He & _ & _)].
        - rewrite Heq in Hdrop. by injection Hdrop as _ <-.
        - by destruct (wf_cellAt_inBounds _ r0 k Empty Hwf He). }
      exists (ms ++ [(AI, k)]).
      destruct (recorded_drop ms _ b' _ AI k row Hh Htok Hre Hdrop Hrow Hk)
        as (? & ? & ?).
      split; [| done]. apply Forall_app. split; [done |].
      apply Forall_singleton. split; [by right | done].
  - apply fmap_Some in Hstep as (w1 & Hres & ->).
    apply resume_Some in Hres as (Hst & _). simpl. rewrite Hst. by exists ms.
Qed.

(** X6: the history is a full record of the board.  In every state the
    page reaches there is a list of moves (blue or red, column in [0,6])
    such that state.history is what appendHistory writes for them in order,
    its tokens are theirs one for one, and dropping them in that order on
    an empty board, no drop failing, gives state.board. *)
Theorem history_replays_to_board (evs : list Event) (w : World) :
  run evs initialWorld = Some w →
  ∃ ms, Forall legalMove ms ∧
    history (state w) = encodeMoves ms ∧
    tokens (history (state w)) = moveToken <$> ms ∧
    replayMoves ms = Some (board (state w)).
Proof.
  intros Hrun.
  apply (run_invariant (λ w, boardInv w ∧ recorded w) step_recorded
           evs initialWorld w); [| done].
  split; [split; [apply emptyBoard_wf | apply emptyBoard_settled] |].
  by exists [].
Qed.

(** [history_replays_to_board] after the game B3 R3 B2 R4. *)
Lemma history_replays_to_board_witness :
  run (playRound 3 3 ++ playRound 2 4) initialWorld = Some afterTwoRounds ∧
  ∃ ms, history (state afterTwoRounds) = encodeMoves ms ∧
    replayMoves ms = Some (board (state afterTwoRounds)).
Proof.
  split; [by vm_compute |].
  destruct (history_replays_to_board (playRound 3 3 ++ playRound 2 4)
              afterTwoRounds) as (ms & _ & Hh & _ & Hre); [by vm_compute |].
  by exists ms.
Defined.

(** ** What the server is asked *)

Lemma step_requestInv (e : Event) (w w' : World) :
  (countsAgree w ∧ turnInv w) ∧ Forall asksForRed (requests w) →
  nominal e w = true → step e w = Some w' →
  (countsAgree w' ∧ turnInv w') ∧ Forall asksForRed (requests w').
Proof.
  intros [Hinv Hreq] Hnom Hstep.
  split; [by eapply step_turnInv |].
  destruct Hinv as [_ Hturn].
  destruct e as [col | v | | | r |]; simpl in Hstep.
  - injection Hstep as <-. unfold canvasClick. case_bool_decide; [done |].
    by destruct (handleMove_level col w) as [_ ->].
  - case_bool_decide; [| done]. by injection Hstep as <-.
  - by injection Hstep as <-.
  - apply fmap_Some in Hstep as (w1 & Hres & ->).
    apply resume_Some in Hres as (Hst & _ & _ & Hrq & Htake).
    apply (turnInv_takeStage w) in Htake as [Hsus _]; [| done].
    destruct Hturn as [Halt Hturn]. rewrite Hsus in Hturn.
    destruct Hturn as [_ Hodd].
    simpl. rewrite Hrq, Hst. apply Forall_app. split; [done |].
    apply Forall_singleton. by split.
  - apply fmap_Some in Hstep as (w1 & Hres & ->).
    apply resume_Some in Hres as (_ & _ & _ & Hrq & _). simpl.
    destruct (aiMove_settle_level r w1) as [_ ->]. by rewrite Hrq.
  - apply fmap_Some in Hstep as (w1 & Hres & ->).
    apply resume_Some in Hres as (_ & _ & _ & Hrq & _). simpl.
    by rewrite Hrq.
Qed.

(** X7: along every run in which each AI request brings back a column
    that admits a drop and Reset is pressed only while no move is in
    flight, every request the page sends asks for a red move: the history
    in it alternates from B and has an odd number of tokens, so its last
    token is blue's. *)
Theorem requests_ask_for_red (evs : list Event) (w : World) :
  runNominal evs initialWorld = Some w →
  ∀ rq, rq ∈ requests w →
    alternates (tokens (position rq)) ∧
    Nat.even (length (tokens (position rq))) = false ∧
    ∃ t, last (tokens (position rq)) = Some t ∧ marker t = "B"%char.
Proof.
  intros Hrun rq Hrq.
  assert ((countsAgree w ∧ turnInv w) ∧ Forall asksForRed (requests w))
    as [_ Hreq].
  { apply (runNominal_invariant _ step_requestInv evs initialWorld w);
      [| done].
    split; [| by apply Forall_nil].
    split; [apply initialWorld_countsAgree |].
    split; [apply alternates_nil | done]. }
  rewrite Forall_forall in Hreq. destruct (Hreq rq Hrq) as [Halt Hodd].
  split; [done |]. split; [done |].
  destruct (tokens (position rq)) as [| t0 ts] eqn:Hts using rev_ind;
    [done |].
  exists t0. rewrite last_snoc. split; [done |].
  rewrite even_length_snoc in Hodd.
  rewrite (Halt (length ts) t0).
  - unfold markerAt. by destruct (Nat.even (length ts)).
  - by rewrite lookup_app_r, Nat.sub_diag by done.
Qed.

(** [requests_ask_for_red] after the game B3 R3 B2 R4. *)
Lemma requests_ask_for_red_witness :
  runNominal (playRound 3 3 ++ playRound 2 4) initialWorld =
    Some afterTwoRounds ∧
  {| position := "B3R3B2"; levelParam := 7 |} ∈ requests afterTwoRounds ∧
  alternates (tokens "B3R3B2").
Proof.
  split; [by vm_compute |].
  assert ({| position := "B3R3B2"; levelParam := 7 |} ∈
            requests afterTwoRounds) as Hin by (vm_compute; by right; left).
  split; [done |].
  apply (requests_ask_for_red (playRound 3 3 ++ playRound 2 4)
           afterTwoRounds eq_refl _ Hin).
Defined.

(** ** Lines, once there, stay *)

Lemma findWinningLine_hasLine (b : Board) (p : CellState) :
  findWinningLine b p ≠ None ↔ hasLine b p.
Proof.
  split.
  - destruct (findWinningLine b p) as [line |] eqn:Hfind; [| done].
    intros _. unfold findWinningLine in Hfind.
    apply firstSome_Some in Hfind as (c & _ & Hfind).
    apply firstSome_Some in Hfind as (r & _ & Hfind).
    apply firstSome_Some in Hfind as (d & Hd & Hfind).
    destruct (collectLine b p c r d.1 d.2) as [cs |] eqn:Hcs; [| discriminate].
    apply collectLine_sound in Hcs as [_ Hall].
    by exists c, r, d.
  - intros (c & r & d & Hd & Hall).
    destruct (Hall 0 ltac:(lia)) as [[Hc Hr] _].
    assert (is_Some (findWinningLine b p)) as [line ->]; [| done].
    unfold findWinningLine.
    apply (firstSome_hit _ _ c); [apply elem_of_seqZ; lia |].
    apply (firstSome_hit _ _ r); [apply elem_of_seqZ; lia |].
    apply (firstSome_hit _ _ d); [done |].
    rewrite (collectLine_complete b p c r d.1 d.2 Hall). by eexists.
Qed.

Lemma hasLine_drop (b : Board) (p q : CellState) (c : Z) :
  q ≠ Empty → hasLine b q → hasLine (dropPiece b p c).1 q.
Proof.
  intros Hq (c0 & r0 & d & Hd & Hall). exists c0, r0, d. split; [done |].
  intros i Hi. destruct (Hall i Hi) as [Hin Hcell]. split; [done |].
  destruct (dropPiece_spec b p c) as [[-> _] | (r & _ & He & _ & ->)];
    [done |]. simpl.
  rewrite (cellAt_setCell _ _ _ Empty) by done.
  case_decide as Hsame; [| done]. destruct Hsame as [E1 E2].
  rewrite E1, E2 in Hcell. congruence.
Qed.

Lemma step_keeps_line (e : Event) (w w' : World) (q : CellState) :
  q ≠ Empty → e ≠ ResetClick → step e w = Some w' →
  hasLine (board (state w)) q → hasLine (board (state w')) q.
Proof.
  intros Hq He Hstep Hline.
  destruct e as [col | v | | | r |]; simpl in Hstep.
  - injection Hstep as <-. unfold canvasClick. case_bool_decide; [done |].
    destruct (handleMove_cases col w)
      as [(-> & _) | (b' & row & Hdrop & _ & _ & -> & _)]; [done |].
    replace b' with (dropPiece (board (state w)) Human col).1
      by (by rewrite Hdrop).
    by apply hasLine_drop.
  - case_bool_decide; [| done]. by injection Hstep as <-.
  - done.
  - apply fmap_Some in Hstep as (w1 & Hres & ->).
    apply resume_Some in Hres as (Hst & _). simpl. by rewrite Hst.
  - apply fmap_Some in Hstep as (w1 & Hres & ->).
    apply resume_Some in Hres as (Hst & _). simpl.
    destruct (aiMove_settle_cases r w1)
      as [_ [[-> _] | (k & b' & row & _ & Hdrop & _ & -> & _)]].
    + by rewrite Hst.
    + rewrite Hst in *.
      replace b' with (dropPiece (board (state w)) AI k).1
        by (by rewrite Hdrop).
      by apply hasLine_drop.
  - apply fmap_Some in Hstep as (w1 & Hres & ->).
    apply resume_Some in Hres as (Hst & _). simpl. by rewrite Hst.
Qed.

(** X8: a win is never taken back.  Once findWinningLine finds a line for
    blue or for red, it finds one for that player after every further run
    of events in which Reset is not pressed. *)
Theorem line_stays_until_reset (evs : list Event) (w w' : World)
    (q : CellState) :
  q ≠ Empty → ResetClick ∉ evs → run evs w = Some w' →
  findWinningLine (board (state w)) q ≠ None →
  findWinningLine (board (state w')) q ≠ None.
Proof.
  intros Hq. rewrite !findWinningLine_hasLine.
  revert w. induction evs as [| e evs IH]; intros w Hno Hrun Hline.
  - by injection Hrun as <-.
  - simpl in Hrun. destruct (step e w) as [w1 |] eqn:He; [| done].
    simpl in Hrun. apply not_elem_of_cons in Hno as [Hne Hno].
    apply (IH w1 Hno Hrun). by apply (step_keeps_line e w w1 q).
Qed.

(** [line_stays_until_reset]: blue's four in column 0 and one more round. *)
Lemma line_stays_until_reset_witness :
  Human ≠ Empty ∧ (ResetClick ∉ playRound 0 2) ∧
  findWinningLine (board (state afterBlueWins)) Human ≠ None ∧
  findWinningLine
    (board (state (worldAfter (blueWinsRun ++ playRound 0 2)))) Human ≠ None.
Proof.
  assert (ResetClick ∉ playRound 0 2) as Hno.
  { unfold playRound. rewrite !not_elem_of_cons. repeat split; try done.
    apply not_elem_of_nil. }
  assert (findWinningLine (board (state afterBlueWins)) Human ≠ None) as Hwin
    by (by vm_compute).
  split; [done |]. split; [done |]. split; [done |].
  apply (line_stays_until_reset (playRound 0 2) afterBlueWins _ Human);
    [done | done | by vm_compute | done].
Defined.

(** ** describeOutcome *)

(** X9: on a 7x6 board describeOutcome names the players that hold four in
    a row: Conflict state exactly when both do, You win! exactly when only
    blue does, AI wins! exactly when only red does; and when neither does
    it tells from state.busy whether the AI is thinking. *)
Theorem describeOutcome_names_the_lines (s : GameState) :
  wf_board (board s) →
  (describeOutcome s = "Conflict state"%string ↔
     hasLine (board s) Human ∧ hasLine (board s) AI) ∧
  (describeOutcome s = "You win!"%string ↔
     hasLine (board s) Human ∧ ¬ hasLine (board s) AI) ∧
  (describeOutcome s = "AI wins!"%string ↔
     ¬ hasLine (board s) Human ∧ hasLine (board s) AI) ∧
  (¬ hasLine (board s) Human → ¬ hasLine (board s) AI →
     describeOutcome s =
       if busy s then "AI thinking..."%string
       else "AI done. Your turn."%string).
Proof.
  intros _. rewrite <- !findWinningLine_hasLine. unfold describeOutcome.
  destruct (busy s);
    repeat case_bool_decide; simpl; repeat split; try done; tauto.
Qed.

(** [describeOutcome_names_the_lines] on blue's four in column 0. *)
Lemma describeOutcome_names_the_lines_witness :
  wf_board (board (state afterBlueWins)) ∧
  describeOutcome (state afterBlueWins) = "You win!"%string ∧
  hasLine (board (state afterBlueWins)) Human.
Proof.
  split; [by_eval |]. split; [by vm_compute |].
  destruct (describeOutcome_names_the_lines (state afterBlueWins))
    as (_ & [H _] & _); [by_eval |].
  apply H. by vm_compute.
Defined.

(** ** Reset starts over *)

Lemma samePage_step (e : Event) (w1 w2 w1' : World) :
  samePage w1 w2 → step e w1 = Some w1' →
  ∃ w2', step e w2 = Some w2' ∧ samePage w1' w2'.
Proof.
  destruct w1 as [[b1 h1 l1 bu1] wl1 st1 su1 rq1].
  destruct w2 as [[b2 h2 l2 bu2] wl2 st2 su2 rq2].
  unfold samePage. simpl. intros (<- & <- & <- & <- & <- & <-) Hstep.
  destruct e as [col | v | | | r |]; simpl in Hstep |- *.
  - injection Hstep as <-. eexists. split; [done |].
    unfold canvasClick. case_bool_decide; [done |].
    unfold handleMove. simpl. destruct bu1; [done |].
    destruct (dropPiece b1 Human col) as [b' row]. by case_decide.
  - case_bool_decide; [| done]. injection Hstep as <-. by eexists.
  - injection Hstep as <-. by eexists.
  - unfold resume in *. simpl in *.
    destruct (takeStage AwaitAnimations1 su1) as [l |]; [| done].
    simpl in *. injection Hstep as <-. by eexists.
  - unfold resume in *. simpl in *.
    destruct (takeStage AwaitFetch su1) as [l |]; [| done].
    simpl in *. injection Hstep as <-. eexists. split; [done |].
    unfold aiMove_settle, aiMove_try. destruct r as [m | t | k]; [done | done |].
    simpl. destruct (dropPiece b1 AI k) as [b' row]. by case_decide.
  - unfold resume in *. simpl in *.
    destruct (takeStage AwaitAnimations2 su1) as [l |]; [| done].
    simpl in *. injection Hstep as <-. by eexists.
Qed.

Lemma samePage_run (evs : list Event) (w1 w2 w1' : World) :
  samePage w1 w2 → run evs w1 = Some w1' →
  ∃ w2', run evs w2 = Some w2' ∧ samePage w1' w2'.
Proof.
  revert w1 w2. induction evs as [| e evs IH]; intros w1 w2 Hsame Hrun.
  - injection Hrun as <-. by exists w2.
  - simpl in Hrun. destruct (step e w1) as [w1a |] eqn:He; [| done].
    simpl in Hrun.
    destruct (samePage_step e w1 w2 w1a Hsame He) as (w2a & He2 & Hsame2).
    destruct (IH w1a w2a Hsame2 Hrun) as (w2' & Hrun2 & Hsame').
    exists w2'. split; [| done]. simpl. by rewrite He2.
Qed.

(** X10: Reset starts over.  Pressed while no call is suspended, it
    leaves a page on which every run of events goes exactly as on the
    freshly loaded page: same board, history, busy flag, winLine, status
    and suspended calls after each run.  Only the level, which Reset keeps,
    and the requests already sent can differ. *)
Theorem reset_starts_over (w : World) (evs : list Event) (w' : World) :
  suspended w = [] →
  run evs (resetGame w) = Some w' →
  level (state (resetGame w)) = level (state w) ∧
  ∃ w0, run evs initialWorld = Some w0 ∧ samePage w' w0.
Proof.
  intros Hsus Hrun. split; [done |].
  apply (samePage_run evs (resetGame w) initialWorld w'); [| done].
  unfold samePage. simpl. rewrite Hsus. repeat split.
Qed.

(** [reset_starts_over]: Reset after blue's win, then one round. *)
Lemma reset_starts_over_witness :
  suspended afterBlueWins = [] ∧
  ∃ w0, run (playRound 3 3) initialWorld = Some w0 ∧
    samePage (worldAfter (blueWinsRun ++ ResetClick :: playRound 3 3)) w0.
Proof.
  split; [by vm_compute |].
  apply (reset_starts_over afterBlueWins (playRound 3 3)); by vm_compute.
Defined.

(** ** Layout of the canvas *)

(** X11: for every cell (col, row) of the board, drawDisc puts the disc on
    the hole drawBoard draws for it, and spawnAnimation starts the falling
    disc above the canvas, in the x of that hole and with that hole as its
    target; the square of side CELL around the hole lies inside the board
    rectangle, which lies inside the canvas; and the holes of two different
    cells are at least CELL apart in x or in y. *)
Theorem cells_are_laid_out_on_the_board (col row col' row' : Z)
    (color : string) :
  inBounds col row → inBounds col' row' →
  let '(x, y) := drawDisc_center col row in
  let '(x', y') := drawDisc_center col' row' in
  let '(bx, by_, bw, bh) := drawBoard_rect in
  drawBoard_hole col row = (x, y) ∧
  anim_x (spawnAnimation col row color) = x ∧
  anim_targetY (spawnAnimation col row color) = y ∧
  anim_y (spawnAnimation col row color) < 0 ∧
  anim_vy (spawnAnimation col row color) = 0 ∧
  (bx <= x - CELL / 2 ∧ x + CELL / 2 <= bx + bw ∧
   by_ <= y - CELL / 2 ∧ y + CELL / 2 <= by_ + bh) ∧
  (0 <= bx ∧ bx + bw <= canvasWidth ∧ 0 <= by_ ∧ by_ + bh <= canvasHeight) ∧
  (¬ (col = col' ∧ row = row') →
   CELL <= Z.abs (x - x') ∨ CELL <= Z.abs (y - y')).
Proof.
  unfold inBounds, WIDTH, HEIGHT. intros [Hc Hr] [Hc' Hr'].
  cbv [drawDisc_center drawBoard_hole drawBoard_rect spawnAnimation
       anim_x anim_y anim_targetY anim_vy canvasWidth canvasHeight
       CELL PADDING BUTTON_HEIGHT WIDTH HEIGHT].
  change (96 / 2) with 48. change (24 / 2) with 12.
  repeat split; lia.
Qed.

(** [cells_are_laid_out_on_the_board] for the bottom left cell and the
    top right cell. *)
Lemma cells_are_laid_out_on_the_board_witness :
  inBounds 0 0 ∧ inBounds 6 5 ∧
  drawDisc_center 0 0 = (72, 626) ∧ drawBoard_hole 0 0 = (72, 626).
Proof.
  assert (inBounds 0 0) as H1 by (by vm_compute).
  assert (inBounds 6 5) as H2 by (by vm_compute).
  split; [done |]. split; [done |]. split; [done |].
  pose proof (cells_are_laid_out_on_the_board 0 0 6 5 HUMAN_COLOR H1 H2) as H.
  exact (proj1 H).
Defined.

(** X12: the button drawButtons draws for a column in [0,6] is centred on
    the x of that column's holes, as is its label; it lies inside the
    canvas and ends above the board rectangle; and the buttons of two
    neighbouring columns do not overlap. *)
Theorem buttons_sit_over_their_columns (col row : Z) :
  inBounds col row →
  let '(x, y) := drawDisc_center col row in
  let '(bx, by_, bw, bh) := drawButtons_rect col in
  let '(nx, _, _, _) := drawButtons_rect (col + 1) in
  let '(_, boardY, _, _) := drawBoard_rect in
  2 * bx + bw = 2 * x ∧
  drawButtons_label col = (x, by_ + bh / 2) ∧
  (0 <= bx ∧ bx + bw <= canvasWidth ∧ 0 <= by_) ∧
  by_ + bh < boardY ∧
  bx + bw < nx.
Proof.
  unfold inBounds, WIDTH, HEIGHT. intros [Hc Hr].
  cbv [drawDisc_center drawButtons_rect drawButtons_label drawBoard_rect
       canvasWidth CELL PADDING BUTTON_HEIGHT WIDTH HEIGHT].
  change (96 / 2) with 48. change (24 / 2) with 12.
  change ((50 - 10) / 2) with 20.
  repeat split; lia.
Qed.

(** [buttons_sit_over_their_columns] for column 6. *)
Lemma buttons_sit_over_their_columns_witness :
  inBounds 6 0 ∧ drawButtons_rect 6 = (606, 12, 84, 40) ∧
  drawButtons_label 6 = (648, 32).
Proof.
  assert (inBounds 6 0) as H1 by (by vm_compute).
  split; [done |]. split; [done |].
  pose proof (buttons_sit_over_their_columns 6 0 H1) as H.
  exact (proj1 (proj2 H)).
Defined.

(** ** shade and clamp *)

Lemma clamp_range (value min max : Z) :
  min <= max → min <= clamp value min max <= max.
Proof. unfold clamp. lia. Qed.

(** X13: whatever the colour string and the integer amount, shade returns
    the text rgb(r, g, b) with each of r, g and b in [0,255]; a string
    without hexadecimal digits counts as 0 in every channel. *)
Theorem shade_channels_in_byte_range (color : string) (amount : Z) :
  ∃ r g b,
    shade color amount =
      "rgb(" +:+ pretty r +:+ ", " +:+ pretty g +:+ ", " +:+ pretty b +:+ ")" ∧
    0 <= r <= 255 ∧ 0 <= g <= 255 ∧ 0 <= b <= 255 ∧
    (parseInt16 (removeFirstHash color) = NaN →
     r = clamp amount 0 255 ∧ g = r ∧ b = r).
Proof.
  unfold shade, shade_channels.
  eexists _, _, _. split; [done |].
  split; [by apply clamp_range |]. split; [by apply clamp_range |].
  split; [by apply clamp_range |].
  by intros ->.
Qed.

(** [shade_channels_in_byte_range] on a string that is no colour. *)
Lemma shade_channels_in_byte_range_witness :
  parseInt16 (removeFirstHash "none") = NaN ∧
  shade "none" 300 = "rgb(255, 255, 255)"%string.
Proof.
  split; [done |].
  destruct (shade_channels_in_byte_range "none" 300)
    as (r & g & b & Hshade & _ & _ & _ & Hnan).
  destruct (Hnan eq_refl) as (Hr & -> & ->). rewrite Hshade, Hr.
  by vm_compute.
Defined.

Lemma hexValue_range (a : ascii) (d : Z) :
  hexValue a = Some d → 0 <= d <= 15.
Proof.
  unfold hexValue. repeat case_bool_decide; intros [= <-]; lia.
Qed.

Lemma parseInt16_hex (a1 : ascii) (rest : string) :
  is_Some (hexValue a1) →
  (∀ a2 t, rest = String a2 t → is_Some (hexValue a2)) →
  parseInt16 (String a1 rest) =
    match hexPrefix (String a1 rest) 0 false with
    | None => NaN
    | Some n => roundToDouble n
    end.
Proof.
  intros [d1 H1] H2.
  destruct a1 as [[] [] [] [] [] [] [] []];
    try (vm_compute in H1; discriminate H1); try reflexivity.
  destruct rest as [| a2 t]; [reflexivity |].
  destruct (H2 a2 t eq_refl) as [d2 Hd2].
  destruct a2 as [[] [] [] [] [] [] [] []];
    try (vm_compute in Hd2; discriminate Hd2); reflexivity.
Qed.

(** X14: on a colour written as # and six hexadecimal digits of value n,
    shade reads the three bytes of n and moves each by the amount, kept
    within [0,255]: the channels are n / 65536, n / 256 mod 256 and
    n mod 256, each plus the amount and clamped.  With an amount that is
    not positive no channel gets brighter. *)
Theorem shade_moves_each_byte (color : string) (n amount : Z) :
  hexColor color n →
  0 <= n < 2 ^ 24 ∧
  shade_channels color amount =
    (clamp (n / 65536 + amount) 0 255,
     clamp ((n / 256) `mod` 256 + amount) 0 255,
     clamp (n `mod` 256 + amount) 0 255) ∧
  (amount <= 0 →
   (shade_channels color amount).1.1 <= n / 65536 ∧
   (shade_channels color amount).1.2 <= (n / 256) `mod` 256 ∧
   (shade_channels color amount).2 <= n `mod` 256).
Proof.
  intros (ds & -> & Hlen & Hval & Hhex).
  destruct ds as [| a1 [| a2 [| a3 [| a4 [| a5 [| a6 [| a7 ds]]]]]]];
    try discriminate Hlen.
  destruct (Hhex 0%nat a1 eq_refl) as [d1 H1].
  destruct (Hhex 1%nat a2 eq_refl) as [d2 H2].
  destruct (Hhex 2%nat a3 eq_refl) as [d3 H3].
  destruct (Hhex 3%nat a4 eq_refl) as [d4 H4].
  destruct (Hhex 4%nat a5 eq_refl) as [d5 H5].
  destruct (Hhex 5%nat a6 eq_refl) as [d6 H6].
  pose proof (hexValue_range _ _ H1). pose proof (hexValue_range _ _ H2).
  pose proof (hexValue_range _ _ H3). pose proof (hexValue_range _ _ H4).
  pose proof (hexValue_range _ _ H5). pose proof (hexValue_range _ _ H6).
  assert (Hn : 0 <= n < 2 ^ 24).
  { simpl in Hval. rewrite H1, H2, H3, H4, H5, H6 in Hval.
    injection Hval as <-. lia. }
  assert (Hchan : shade_channels (String "#" (String a1 (String a2 (String a3
            (String a4 (String a5 (String a6 EmptyString))))))) amount =
          (clamp (n / 65536 + amount) 0 255,
           clamp ((n / 256) `mod` 256 + amount) 0 255,
           clamp (n `mod` 256 + amount) 0 255)).
  { unfold shade_channels. cbn [removeFirstHash]. rewrite decide_True by done.
    rewrite parseInt16_hex; [| by eexists | by intros ? ? [= <- <-]; eexists].
    rewrite Hval.
    assert (roundToDouble n = Finite n) as ->.
    { unfold roundToDouble. rewrite bool_decide_eq_true_2; [done |].
      destruct (decide (n = 0)) as [-> | Hnz]; [done |].
      assert (Z.log2 n < 24) by (apply Z.log2_lt_pow2; lia). lia. }
    assert (toInt32 (Finite n) = n) as ->.
    { unfold toInt32. rewrite Z.mod_small; lia. }
    change 255 with (Z.ones 8).
    rewrite !Z.land_ones, !Z.shiftr_div_pow2 by lia.
    change (2 ^ 16) with 65536. change (2 ^ 8) with 256.
    change (Z.ones 8) with 255.
    rewrite (Z.mod_small (n / 65536)); [done |].
    split; [apply Z.div_pos; lia | apply Z.div_lt_upper_bound; lia]. }
  split; [done |]. split; [done |].
  intros Hneg. rewrite Hchan. simpl.
  assert (0 <= n / 65536) by (apply Z.div_pos; lia).
  pose proof (Z.mod_pos_bound (n / 256) 256 ltac:(lia)).
  pose proof (Z.mod_pos_bound n 256 ltac:(lia)).
  unfold clamp. lia.
Qed.

(** [shade_moves_each_byte] on the colour of the blue discs. *)
Lemma shade_moves_each_byte_witness :
  hexColor HUMAN_COLOR 3718648 ∧
  shade_channels HUMAN_COLOR (-20) = (36, 169, 228) ∧
  shade HUMAN_COLOR (-20) = "rgb(36, 169, 228)"%string.
Proof.
  assert (hexColor HUMAN_COLOR 3718648) as Hc.
  { exists "38bdf8"%string. split; [done |]. split; [done |]. split; [done |].
    intros i a Hi.
    do 6 (destruct i as [| i]; [injection Hi as <-; by eexists |]).
    discriminate Hi. }
  split; [done |].
  destruct (shade_moves_each_byte HUMAN_COLOR 3718648 (-20) Hc)
    as (_ & Hchan & _).
  split; [by rewrite Hchan | by vm_compute].
Defined.

(** ** drawPieces *)

(** X15: on a 7x6 board drawPieces draws a static disc for exactly the
    cells that hold a piece and have no animation in flight, blue for a
    blue piece and red for a red one, and asks for the pulse exactly for
    the cells listed in winLine. *)
Theorem drawPieces_draws_resting_pieces (b : Board)
    (animations : list Animation) (wl : option WinningLine) (d : DiscCall) :
  wf_board b →
  d ∈ drawPieces b animations wl ↔
    inBounds (disc_col d) (disc_row d) ∧
    occupied b (disc_row d) (disc_col d) ∧
    ¬ Exists (λ a, anim_col a = disc_col d ∧ anim_row a = disc_row d)
        animations ∧
    disc_color d =
      (if decide (cellAt b (disc_row d) (disc_col d) = Some Human)
       then HUMAN_COLOR else AI_COLOR) ∧
    disc_pulse d = isWinner wl (disc_col d) (disc_row d).
Proof.
  intros Hwf. unfold drawPieces. rewrite list_elem_of_bind. split.
  - intros (c & Hd & Hc%elem_of_seqZ).
    apply list_elem_of_bind in Hd as (r & Hd & Hr%elem_of_seqZ).
    case_decide as Hcell; [by apply elem_of_nil in Hd |].
    case_bool_decide as Hanim; [by apply elem_of_nil in Hd |].
    apply list_elem_of_singleton in Hd as ->. simpl.
    assert (inBounds c r) as Hin by (unfold inBounds; lia).
    split; [done |]. split; [by apply wf_occupied |]. done.
  - intros (Hin & Hocc & Hanim & Hcolor & Hpulse).
    destruct Hin as [Hc Hr].
    exists (disc_col d). split; [| apply elem_of_seqZ; lia].
    apply list_elem_of_bind. exists (disc_row d).
    split; [| apply elem_of_seqZ; lia].
    rewrite decide_False
      by (destruct Hocc as (q & Hq & Hne); congruence).
    rewrite bool_decide_eq_false_2 by done.
    apply list_elem_of_singleton. destruct d as [dc dr dcol dp].
    simpl in *. by subst.
Qed.

(** [drawPieces_draws_resting_pieces]: the blue piece of B3, not yet at
    rest while its animation is in flight, drawn once it is. *)
Lemma drawPieces_draws_resting_pieces_witness :
  wf_board (board (state (canvasClick 3 initialWorld))) ∧
  drawPieces (board (state (canvasClick 3 initialWorld)))
    [spawnAnimation 3 0 HUMAN_COLOR] None = [] ∧
  {| disc_col := 3; disc_row := 0; disc_color := HUMAN_COLOR;
     disc_pulse := false |} ∈
    drawPieces (board (state (canvasClick 3 initialWorld))) [] None.
Proof.
  split; [by_eval |]. split; [by vm_compute |].
  apply (drawPieces_draws_resting_pieces _ [] None); [by_eval |].
  simpl. split; [by vm_compute |]. split; [| split; [| done]].
  - exists Human. by vm_compute.
  - by intros H%Exists_nil.
Defined.

Lemma findWinningLine_sound (b : Board) (p : CellState) (line : WinningLine) :
  findWinningLine b p = Some line →
  player line = p ∧ length (cells line) = 4%nat ∧
  ∀ x, x ∈ cells line → cellAt b (row x) (col x) = Some p.
Proof.
  intros Hfind. unfold findWinningLine in Hfind.
  apply firstSome_Some in Hfind as (c & _ & Hfind).
  apply firstSome_Some in Hfind as (r & _ & Hfind).
  apply firstSome_Some in Hfind as (d & Hd & Hfind).
  destruct (collectLine b p c r d.1 d.2) as [cs |] eqn:Hcs; [| discriminate].
  injection Hfind as <-. apply collectLine_sound in Hcs as [-> Hall].
  split; [done |]. split; [done |].
  intros x Hx. unfold lineCells in Hx.
  apply list_elem_of_fmap in Hx as (i & -> & Hi). simpl.
  apply Hall.
  repeat (apply elem_of_cons in Hi as [-> | Hi]; [lia |]).
  by apply elem_of_nil in Hi.
Qed.

(** X16: in every state the page reaches, and whatever animations are in
    flight, a disc that drawPieces draws pulsing lies on the line stored
    in winLine: that line has four cells, the disc's cell holds a piece
    of the line's player, blue or red, and the disc has that player's
    colour. *)
Theorem pulsing_discs_are_the_winners (evs : list Event) (w : World)
    (animations : list Animation) (d : DiscCall) :
  run evs initialWorld = Some w →
  d ∈ drawPieces (board (state w)) animations (winLine w) →
  disc_pulse d = true →
  ∃ line, winLine w = Some line ∧
    length (cells line) = 4%nat ∧
    {| col := disc_col d; row := disc_row d |} ∈ cells line ∧
    (player line = Human ∨ player line = AI) ∧
    cellAt (board (state w)) (disc_row d) (disc_col d) =
      Some (player line) ∧
    disc_color d =
      (if decide (player line = Human) then HUMAN_COLOR else AI_COLOR).
Proof.
  intros Hrun Hd Hpulse.
  assert (winLineFresh w) as Hfresh.
  { apply (run_invariant winLineFresh step_winLineFresh evs initialWorld w);
      [| done]. by vm_compute. }
  assert (boardInv w) as [Hwf _].
  { apply (run_invariant boardInv step_boardInv evs initialWorld w); [| done].
    split; [apply emptyBoard_wf | apply emptyBoard_settled]. }
  unfold drawPieces in Hd.
  apply list_elem_of_bind in Hd as (c & Hd & _).
  apply list_elem_of_bind in Hd as (r & Hd & _).
  case_decide as Hcell; [by apply elem_of_nil in Hd |].
  case_bool_decide as Hanim; [by apply elem_of_nil in Hd |].
  apply list_elem_of_singleton in Hd as ->. simpl in *.
  destruct (winLine w) as [line |] eqn:Hline; [| done]. simpl in Hpulse.
  apply bool_decide_eq_true_1 in Hpulse.
  apply Exists_exists in Hpulse as (x & Hx & Hxc & Hxr).
  exists line. split; [done |].
  assert (∃ p, (p = Human ∨ p = AI) ∧
            findWinningLine (board (state w)) p = Some line) as (p & Hp & Hfind).
  { unfold winLineFresh, updateInfo in Hfresh. simpl in Hfresh.
    rewrite Hline in Hfresh.
    destruct (findWinningLine (board (state w)) Human) as [l |] eqn:Hh.
    - exists Human. split; [by left |]. by injection Hfresh as ->.
    - exists AI. by split; [right |]. }
  destruct (findWinningLine_sound _ _ _ Hfind) as (Hpl & Hlen & Hcells).
  split; [done |].
  split; [by destruct x as [xc xr]; simpl in *; subst |].
  rewrite Hpl. split; [done |].
  specialize (Hcells x Hx). rewrite Hxc, Hxr in Hcells.
  split; [done |]. unfold pieceColor. rewrite Hcells.
  destruct Hp as [-> | ->]; by repeat case_decide.
Qed.

(** [pulsing_discs_are_the_winners] on blue's four in column 0. *)
Lemma pulsing_discs_are_the_winners_witness :
  run blueWinsRun initialWorld = Some afterBlueWins ∧
  {| disc_col := 0; disc_row := 3; disc_color := HUMAN_COLOR;
     disc_pulse := true |} ∈
    drawPieces (board (state afterBlueWins)) [] (winLine afterBlueWins) ∧
  ∃ line, winLine afterBlueWins = Some line ∧ player line = Human.
Proof.
  assert (run blueWinsRun initialWorld = Some afterBlueWins) as Hrun
    by (by vm_compute).
  assert ({| disc_col := 0; disc_row := 3; disc_color := HUMAN_COLOR;
             disc_pulse := true |} ∈
          drawPieces (board (state afterBlueWins)) []
            (winLine afterBlueWins)) as Hin.
  { vm_compute. do 3 right. left. }
  split; [done |]. split; [done |].
  destruct (pulsing_discs_are_the_winners blueWinsRun afterBlueWins [] _
              Hrun Hin eq_refl) as (line & Hline & _ & _ & _ & Hcell & _).
  exists line. split; [done |].
  simpl in Hcell.
  change (cellAt (board (state afterBlueWins)) 3 0) with (Some Human) in Hcell.
  by injection Hcell as <-.
Defined.
